(** * Detection-record pipeline of the football ball detection web app

    A shallow embedding of [app.py]: the selection loop of [detect_ball],
    the history log kept in [history/history.json], the statistics of
    [get_statistics], the two report routes and the index route.

    Modelling choices.
    - Python numbers keep the [int] / [float] distinction ([pynum]).  In
      [Py] a [float] is read as the decimal the log shows, an exact
      rational, so "rounded to two decimals" means a multiple of 1/100.
      Where the result depends on the rounding of the interpreter, in
      the average of the statistics, [Binary64] carries the arithmetic
      out on doubles.
    - The detection model ([YOLO]), the clock and the uploaded bytes are
      inputs of the embedding.
    - [json.dump] / [json.load] are library code.  The history file is
      modelled by what it decodes to, see [history_file]. *)

From Stdlib Require Import ZArith QArith Qround Qabs Qpower String List Bool
  Lia Lqa.
From stdpp Require Import base option list gmap strings.
Import ListNotations.

Local Open Scope Z_scope.
Local Open Scope string_scope.

(** ** Python numbers *)

Module Py.

Inductive pynum : Type :=
| PyInt (z : Z)
| PyFloat (q : Q).

(** The numeric value of a Python number. *)
Definition value (x : pynum) : Q :=
  match x with
  | PyInt z => inject_Z z
  | PyFloat q => q
  end.

(** [x + y]: [int + int] stays an [int], anything else is a [float]. *)
Definition add (x y : pynum) : pynum :=
  match x, y with
  | PyInt a, PyInt b => PyInt (a + b)
  | _, _ => PyFloat (value x + value y)
  end.

(** [x * y], same typing as [add]. *)
Definition mul (x y : pynum) : pynum :=
  match x, y with
  | PyInt a, PyInt b => PyInt (a * b)
  | _, _ => PyFloat (value x * value y)
  end.

(** [x / y], true division: always a [float]; [None] stands for
    [ZeroDivisionError]. *)
Definition truediv (x y : pynum) : option pynum :=
  if Qeq_bool (value y) 0 then None
  else Some (PyFloat (value x / value y)).

(** [sum(xs)]: a left fold of [+] that starts from the [int] 0. *)
Definition sum (xs : list pynum) : pynum := fold_left add xs (PyInt 0).

(** Nearest integer, ties to the even neighbour. *)
Definition round_half_even (q : Q) : Z :=
  let f := Qfloor q in
  match (q - inject_Z f ?= 1 # 2)%Q with
  | Lt => f
  | Gt => f + 1
  | Eq => if Z.even f then f else f + 1
  end.

(** [round(q, 2)] on a [float]. *)
Definition round2 (q : Q) : Q :=
  Qred (Qmake (round_half_even (q * 100)) 100).

(** [round(x, 2)]: an [int] is returned as it is. *)
Definition round (x : pynum) : pynum :=
  match x with
  | PyInt z => PyInt z
  | PyFloat q => PyFloat (round2 q)
  end.

(** [int(q)]: truncation towards zero. *)
Definition int (q : Q) : Z := Z.quot (Qnum q) (Z.pos (Qden q)).

(** A number with at most two decimals: an [int], or a [float] that is
    a multiple of 1/100. *)
Definition two_decimals (x : pynum) : Prop :=
  match x with
  | PyInt _ => True
  | PyFloat q => exists n : Z, (q == Qmake n 100)%Q
  end.

End Py.

(** ** Values the program handles *)

(** One detection of the model: [box.cls[0]], [box.conf[0]] and
    [box.xyxy[0]] are tensor entries, read through [int] and [float]. *)
Record box : Type := {
  cls : Q;
  conf : Q;
  xyxy : Q * Q * Q * Q
}.

(** What [cv2.rectangle] and [cv2.putText] leave on an image.  The text
    of [PutText c x y] is ["Ball "] followed by [c] printed with two
    decimals. *)
Inductive draw_op : Type :=
| Rectangle (x1 y1 x2 y2 : Z) (color : Z * Z * Z) (thickness : Z)
| PutText (c : Q) (x y : Z) (color : Z * Z * Z) (thickness : Z).

(** A decoded image: its raster (opaque) and what was drawn on it. *)
Record image : Type := {
  raster : N;
  drawn : list draw_op
}.

(** The dictionary [record] of [detect_ball], one entry of the log. *)
Record detection_record : Type := {
  date : string;
  image_name : string;
  ball_detected : bool;
  confidence : Py.pynum;
  bbox : option (list Z)
}.

(** The dictionary returned by [get_statistics]. *)
Record statistics : Type := {
  total_images : Z;
  found : Z;
  not_found : Z;
  avg_confidence : Py.pynum
}.

(** ** The files *)

Definition UPLOAD_DIR : string := "uploads".
Definition RESULT_DIR : string := "results".

(** The file at [HISTORY_FILE], by what reading it gives:
    - [Absent]: no such file;
    - [ZeroLength]: a file of size 0;
    - [Document h]: the text [json.dump] writes for the list [h], which
      [json.load] reads back as [h];
    - [Malformed]: a non-empty text that [json.load] rejects. *)
Inductive history_file : Type :=
| Absent
| ZeroLength
| Document (h : list detection_record)
| Malformed.

(** A file of the upload or result directory. *)
Inductive file_data : Type :=
| ImageData (im : image)
| OtherData.

Record world : Type := {
  history : history_file;
  disk : gmap string file_data
}.

Inductive exn : Type :=
| FileNotFoundError
| JSONDecodeError
| BadRequestKeyError
| ZeroDivisionError
| CvError.

(** ** Computations: a state and exception monad over [world] *)

Inductive outcome (A : Type) : Type :=
| Ok (a : A)
| Raised (e : exn).
Arguments Ok {A} a.
Arguments Raised {A} e.

Definition M (A : Type) : Type := world -> outcome A * world.

Definition ret {A} (a : A) : M A := fun w => (Ok a, w).

Definition raise {A} (e : exn) : M A := fun w => (Raised e, w).

Definition bind {A B} (m : M A) (k : A -> M B) : M B :=
  fun w =>
    match m w with
    | (Ok a, w') => k a w'
    | (Raised e, w') => (Raised e, w')
    end.

Declare Scope py_scope.
Delimit Scope py_scope with py.
Notation "x <- m ;; k" := (bind m (fun x => k))
  (at level 100, m at next level, right associativity) : py_scope.
Notation "m ;;; k" := (bind m (fun _ => k))
  (at level 100, right associativity) : py_scope.
Local Open Scope py_scope.

(** ** Paths *)

Definition slash : Ascii.ascii := Ascii.ascii_of_nat 47.

(** The suffix of [p] after its last slash, [acc] being what was read
    since the last one. *)
Fixpoint basename_from (acc p : string) : string :=
  match p with
  | EmptyString => acc
  | String c rest =>
      if Ascii.eqb c slash then basename_from "" rest
      else basename_from (acc ++ String c "") rest
  end.

(** [os.path.basename]. *)
Definition basename (p : string) : string := basename_from "" p.

Fixpoint ends_with_slash (p : string) : bool :=
  match p with
  | EmptyString => false
  | String c EmptyString => Ascii.eqb c slash
  | String _ rest => ends_with_slash rest
  end.

(** [os.path.join a b]. *)
Definition path_join (a b : string) : string :=
  match b with
  | String c _ =>
      if Ascii.eqb c slash then b
      else if (String.eqb a "" || ends_with_slash a)%bool then a ++ b
      else a ++ "/" ++ b
  | EmptyString =>
      if (String.eqb a "" || ends_with_slash a)%bool then a else a ++ "/"
  end.

(** ** File operations *)

(** [os.path.exists(HISTORY_FILE)]. *)
Definition history_exists (f : history_file) : bool :=
  match f with
  | Absent => false
  | _ => true
  end.

(** [os.path.getsize(HISTORY_FILE) > 0], asked of a file that exists. *)
Definition history_nonempty (f : history_file) : bool :=
  match f with
  | Absent | ZeroLength => false
  | Document _ | Malformed => true
  end.

(** [json.load(f)] on the history file. *)
Definition json_load : M (list detection_record) :=
  fun w =>
    match history w with
    | Absent => (Raised FileNotFoundError, w)
    | ZeroLength | Malformed => (Raised JSONDecodeError, w)
    | Document h => (Ok h, w)
    end.

(** [json.dump(data, f, ...)] on the history file opened for writing. *)
Definition json_dump (data : list detection_record) : M unit :=
  fun w => (Ok tt, {| history := Document data; disk := disk w |}).

(** The block every route starts with:
    [if os.path.exists(HISTORY_FILE) and os.path.getsize(HISTORY_FILE) > 0:
       ... json.load(f) else: []]. *)
Definition load_history : M (list detection_record) :=
  fun w =>
    if (history_exists (history w) && history_nonempty (history w))%bool
    then json_load w
    else (Ok [], w).

(** [cv2.imread(path)]: [None] when the file is missing or is no image. *)
Definition imread (path : string) (w : world) : option image :=
  match disk w !! path with
  | Some (ImageData im) => Some im
  | _ => None
  end.

(** [cv2.imwrite(path, image)]. *)
Definition imwrite (path : string) (im : image) : M unit :=
  fun w => (Ok tt, {| history := history w;
                      disk := <[path := ImageData im]> (disk w) |}).

(** ** [detect_ball] *)

(** The local variables the detection loop assigns. *)
Record locals : Type := {
  cur_ball_detected : bool;
  cur_confidence : Py.pynum;
  cur_bbox : option (list Z);
  cur_image : image
}.

Definition SPORTS_BALL : Z := 32.

Definition green : Z * Z * Z := (0, 255, 0).

(** The body of [if cls == 32:], up to the [break]. *)
Definition take_box (b : box) (st : locals) : locals :=
  let '(x1, y1, x2, y2) := xyxy b in
  let x1 := Py.int x1 in
  let y1 := Py.int y1 in
  let x2 := Py.int x2 in
  let y2 := Py.int y2 in
  {| cur_ball_detected := true;
     cur_confidence := Py.PyFloat (conf b);
     cur_bbox := Some [x1; y1; x2; y2];
     cur_image :=
       {| raster := raster (cur_image st);
          drawn := drawn (cur_image st)
                     ++ [Rectangle x1 y1 x2 y2 green 2;
                         PutText (conf b) x1 (y1 - 10) green 2] |} |}.

(** [for box in r.boxes: ...]: the [break] leaves this loop only. *)
Fixpoint scan_boxes (boxes : list box) (st : locals) : locals :=
  match boxes with
  | [] => st
  | b :: rest =>
      if Z.eqb (Py.int (cls b)) SPORTS_BALL then take_box b st
      else scan_boxes rest st
  end.

(** [for r in results: ...]. *)
Definition scan_results (results : list (list box)) (st : locals) : locals :=
  fold_left (fun st r => scan_boxes r st) results st.

(** Lines 62 to 71: read the whole log, append, write it back. *)
Definition append_record (record : detection_record) : M unit :=
  data <- load_history ;;
  json_dump (data ++ [record]).

(** Lines 30 to 32: the locals before the loop. *)
Definition initial_locals (image : image) : locals :=
  {| cur_ball_detected := false;
     cur_confidence := Py.PyInt 0;
     cur_bbox := None;
     cur_image := image |}.

(** Lines 54 to 60: the dictionary [record]. *)
Definition make_record (now filename : string) (st : locals)
  : detection_record :=
  {| date := now;
     image_name := filename;
     ball_detected := cur_ball_detected st;
     confidence := Py.round (cur_confidence st);
     bbox := cur_bbox st |}.

Section Detect.

(** The pretrained model, [model(image)]: one list of boxes for each
    image it is given. *)
Variable model : image -> list (list box).

(** [datetime.now().strftime("%Y-%m-%d %H:%M:%S")] at the call. *)
Variable now : string.

(** An image that cannot be read ends the call with an error before
    anything is written (in the source, at [cv2.imwrite] at the
    latest). *)
Definition detect_ball (image_path : string)
  : M (string * detection_record) :=
  fun w =>
    match imread image_path w with
    | None => (Raised CvError, w)
    | Some image =>
        let results := model image in
        let st := scan_results results (initial_locals image) in
        let filename := basename image_path in
        let result_path := path_join RESULT_DIR filename in
        (imwrite result_path (cur_image st) ;;;
         let record := make_record now filename st in
         append_record record ;;;
         ret (filename, record)) w
    end.

End Detect.

(** ** [get_statistics] *)

(** [sum(1 for r in history if r["ball_detected"])]. *)
Definition count_found (history : list detection_record) : Z :=
  fold_left (fun acc r => if ball_detected r then acc + 1 else acc) history 0.

(** [sum(r["confidence"] for r in history)]. *)
Definition sum_confidence (history : list detection_record) : Py.pynum :=
  Py.sum (map confidence history).

(** [x / total], raising [ZeroDivisionError] when [total] is 0. *)
Definition divide (x : Py.pynum) (total : Z) : M Py.pynum :=
  match Py.truediv x (Py.PyInt total) with
  | Some q => ret q
  | None => raise ZeroDivisionError
  end.

Definition get_statistics : M statistics :=
  history <- load_history ;;
  let total := Z.of_nat (length history) in
  let found := count_found history in
  let not_found := total - found in
  avg_confidence <-
    (if Z.ltb 0 total
     then q <- divide (sum_confidence history) total ;; ret (Py.round q)
     else ret (Py.PyInt 0)) ;;
  ret {| total_images := total;
         found := found;
         not_found := not_found;
         avg_confidence := avg_confidence |}.

(** ** The statistics in binary64 *)

(** [get_statistics] above carries the arithmetic of line 86 out on the
    numbers as the log shows them in decimal.  The interpreter carries
    it out in binary64: a [float] is a double, every [+] and [/] that
    yields a float is rounded to the nearest double, and [round(x, 2)]
    is the double nearest to the two-decimal rounding of the exact value
    of [x].  Here a [PyFloat q] holds the exact value [q] of a double;
    [json.dump] and [json.load] keep that value.  Magnitudes of 2^1024
    and more, where the interpreter overflows, are outside the model. *)
Module Binary64.

(** The [l] with [2^l <= |q| < 2^(l+1)], for [q] other than 0. *)
Definition ilog2 (q : Q) : Z :=
  let l := Z.log2 (Z.abs (Qnum q)) - Z.log2 (Z.pos (Qden q)) in
  if Qle_bool (2 ^ l) (Qabs q) then l else l - 1.

(** The exponent of the last of the 53 bits of the significand of the
    double nearest to [q]; it is -1074 in the subnormal range. *)
Definition ulp_exponent (q : Q) : Z := Z.max (-1074) (ilog2 q - 52).

(** The double nearest to [q], ties to the even significand. *)
Definition rnd (q : Q) : Q :=
  if Qeq_bool q 0 then 0%Q
  else
    let e := ulp_exponent q in
    Qred (inject_Z (Py.round_half_even (q / 2 ^ e)) * 2 ^ e).

(** [float(x)]. *)
Definition float (x : Py.pynum) : Q :=
  match x with
  | Py.PyInt z => rnd (inject_Z z)
  | Py.PyFloat q => q
  end.

(** [x + y]: [int + int] is exact, anything else is a float sum. *)
Definition add (x y : Py.pynum) : Py.pynum :=
  match x, y with
  | Py.PyInt a, Py.PyInt b => Py.PyInt (a + b)
  | _, _ => Py.PyFloat (rnd (float x + float y))
  end.

(** [x / y]: the quotient of two [int]s is rounded once, any other
    quotient is that of the two floats; [None] stands for
    [ZeroDivisionError]. *)
Definition truediv (x y : Py.pynum) : option Py.pynum :=
  if Qeq_bool (Py.value y) 0 then None
  else
    match x, y with
    | Py.PyInt a, Py.PyInt b =>
        Some (Py.PyFloat (rnd (inject_Z a / inject_Z b)))
    | _, _ => Some (Py.PyFloat (rnd (float x / float y)))
    end.

(** [sum(xs)]: the left fold of [+] from the [int] 0, each float sum
    rounded, which is the builtin of CPython up to 3.11. *)
Definition sum (xs : list Py.pynum) : Py.pynum :=
  fold_left add xs (Py.PyInt 0).

(** [round(x, 2)]: an [int] is returned as it is; for a float, the
    exact value is rounded to two decimals, ties to even, and the double
    nearest to that decimal is returned. *)
Definition round (x : Py.pynum) : Py.pynum :=
  match x with
  | Py.PyInt z => Py.PyInt z
  | Py.PyFloat q => Py.PyFloat (rnd (Py.round2 q))
  end.

Definition divide (x : Py.pynum) (total : Z) : M Py.pynum :=
  match truediv x (Py.PyInt total) with
  | Some q => ret q
  | None => raise ZeroDivisionError
  end.

Definition get_statistics : M statistics :=
  history <- load_history ;;
  let total := Z.of_nat (length history) in
  let found := count_found history in
  let not_found := total - found in
  avg_confidence <-
    (if Z.ltb 0 total
     then q <- divide (sum (map confidence history)) total ;; ret (round q)
     else ret (Py.PyInt 0)) ;;
  ret {| total_images := total;
         found := found;
         not_found := not_found;
         avg_confidence := avg_confidence |}.

(** Lines 132 and 158: the average both report routes compute, which
    is the same quotient without the rounding. *)
Definition report_average : M Py.pynum :=
  history <- load_history ;;
  let total_images := Z.of_nat (length history) in
  if negb (Z.eqb total_images 0)
  then divide (sum (map confidence history)) total_images
  else ret (Py.PyInt 0).

End Binary64.

(** ** The report routes *)

(** The four local variables both report routes compute under
    [# Summary]. *)
Record summary : Type := {
  sum_total_images : Z;
  sum_found : Z;
  sum_not_found : Z;
  sum_avg_confidence : Py.pynum
}.

(** The two cells printed for one record: the line
    [date | image | status | confidence*100 %] (the percentage is printed
    with one decimal) and the explanation. *)
Record pdf_entry : Type := {
  entry_date : string;
  entry_image : string;
  entry_status : string;
  entry_percent : Py.pynum;
  entry_explanation : string
}.

(** What [download_pdf] puts on the page.  The summary block prints the
    three counts and [avg_confidence*100] with one decimal. *)
Record pdf_document : Type := {
  pdf_title : string;
  pdf_entries : list pdf_entry;
  pdf_summary : summary
}.

Definition pdf_line (record : detection_record) : pdf_entry :=
  let status :=
    if ball_detected record then "Мяч найден" else "Мяч не найден" in
  let explanation :=
    if ball_detected record
    then "Модель определила местоположение мяча с высокой точностью."
    else "Мяч не найден." in
  {| entry_date := date record;
     entry_image := image_name record;
     entry_status := status;
     entry_percent := Py.mul (confidence record) (Py.PyInt 100);
     entry_explanation := explanation |}.

Definition download_pdf : M pdf_document :=
  history <- load_history ;;
  let entries := map pdf_line history in
  let total_images := Z.of_nat (length history) in
  let found := count_found history in
  let not_found := total_images - found in
  avg_confidence <-
    (if negb (Z.eqb total_images 0)
     then divide (sum_confidence history) total_images
     else ret (Py.PyInt 0)) ;;
  ret {| pdf_title := "Отчёт по анализу положения футбольного мяча";
         pdf_entries := entries;
         pdf_summary :=
           {| sum_total_images := total_images;
              sum_found := found;
              sum_not_found := not_found;
              sum_avg_confidence := avg_confidence |} |}.

(** The trailing row of the spreadsheet: [ball_detected] carries the
    found count, [confidence] the average, and the explanation text prints
    the three counts and [avg_confidence*100] with one decimal. *)
Record excel_total_row : Type := {
  row_date : string;
  row_image : string;
  row_ball_detected : Z;
  row_confidence : Py.pynum;
  row_explanation : summary
}.

(** What [download_excel] writes: one row for each record, then the
    total row. *)
Record excel_document : Type := {
  excel_rows : list detection_record;
  excel_total : excel_total_row
}.

Definition download_excel : M excel_document :=
  history <- load_history ;;
  let total_images := Z.of_nat (length history) in
  let found := count_found history in
  let not_found := total_images - found in
  avg_confidence <-
    (if negb (Z.eqb total_images 0)
     then divide (sum_confidence history) total_images
     else ret (Py.PyInt 0)) ;;
  ret {| excel_rows := history;
         excel_total :=
           {| row_date := "Итог";
              row_image := "";
              row_ball_detected := found;
              row_confidence := avg_confidence;
              row_explanation :=
                {| sum_total_images := total_images;
                   sum_found := found;
                   sum_not_found := not_found;
                   sum_avg_confidence := avg_confidence |} |} |}.

(** ** The index route *)

Inductive http_method : Type := GET | POST.

(** An entry of [request.files]. *)
Record file_storage : Type := {
  filename : string;
  content : file_data
}.

Record request : Type := {
  method : http_method;
  files : gmap string file_storage
}.

(** The arguments of [render_template("index.html", ...)]. *)
Record page : Type := {
  page_result : option (string * detection_record);
  page_history : list detection_record;
  page_stats : statistics
}.

(** [request.files["image"]]: a missing key is a [BadRequestKeyError]. *)
Definition get_file (req : request) (key : string) : M file_storage :=
  match files req !! key with
  | Some file => ret file
  | None => raise BadRequestKeyError
  end.

(** [if file:], the truth value of a [FileStorage]: its file name is not
    empty. *)
Definition file_truthy (file : file_storage) : bool :=
  negb (String.eqb (filename file) "").

(** [file.save(path)]. *)
Definition save (file : file_storage) (path : string) : M unit :=
  fun w => (Ok tt, {| history := history w;
                      disk := <[path := content file]> (disk w) |}).

Section Index.

Variable model : image -> list (list box).
Variable now : string.

Definition index (req : request) : M page :=
  result <-
    (match method req with
     | POST =>
         file <- get_file req "image" ;;
         if file_truthy file then
           let path := path_join UPLOAD_DIR (filename file) in
           save file path ;;;
           r <- detect_ball model now path ;;
           ret (Some r)
         else ret None
     | GET => ret None
     end) ;;
  history <- load_history ;;
  stats <- get_statistics ;;
  ret {| page_result := result;
         page_history := history;
         page_stats := stats |}.

End Index.

(** ** The result images route *)

(** What a route that sends a file answers: the file, or the 404 page. *)
Inductive response : Type :=
| Sent (data : file_data)
| NotFound.

Fixpoint has_slash (p : string) : bool :=
  match p with
  | EmptyString => false
  | String c rest => (Ascii.eqb c slash || has_slash rest)%bool
  end.

(** [send_from_directory(directory, filename)] for a [filename] of one
    path segment, which is all the rule [/results/<filename>] lets
    through: the join of the two is refused for [..] and is otherwise
    [directory/filename]; a path that names no file is answered by 404.
    The application is taken to run in its own directory, so that the
    relative paths of [cv2] and of Flask name the same files. *)
Definition send_from_directory (directory filename : string) (w : world)
  : response :=
  if String.eqb filename ".." then NotFound
  else
    match disk w !! path_join directory filename with
    | Some data => Sent data
    | None => NotFound
    end.

Definition show_result_image (filename : string) (w : world) : response :=
  send_from_directory RESULT_DIR filename w.

(** * Vocabulary of the properties *)

(** A detection of another class than the sports ball. *)
Definition not_ball (b : box) : Prop := Py.int (cls b) <> SPORTS_BALL.

(** The coordinates of a detection, read as [int]s. *)
Definition box_coordinates (b : box) : list Z :=
  let '(x1, y1, x2, y2) := xyxy b in
  [Py.int x1; Py.int y1; Py.int x2; Py.int y2].

(** What the loop keeps true of the locals: the box is set exactly when
    the flag is, and the confidence is still the integer 0 or is a
    [float]. *)
Definition coherent (st : locals) : Prop :=
  (cur_bbox st = None <-> cur_ball_detected st = false)
  /\ (cur_ball_detected st = false -> cur_confidence st = Py.PyInt 0).

(** The number of records of a log that found a ball. *)
Definition records_found (h : list detection_record) : nat :=
  length (List.filter ball_detected h).


(** The average the report routes compute: the mean when there is a
    record, the integer 0 when there is none. *)
Definition report_average (h : list detection_record) : Py.pynum :=
  match h with
  | [] => Py.PyInt 0
  | _ :: _ =>
      Py.PyFloat (Py.value (sum_confidence h)
                  / inject_Z (Z.of_nat (length h)))
  end.

(** The statistics of a log. *)
Definition statistics_of (h : list detection_record) : statistics :=
  {| total_images := Z.of_nat (length h);
     found := count_found h;
     not_found := Z.of_nat (length h) - count_found h;
     avg_confidence := Py.round (report_average h) |}.

(** The world with the history file replaced by the document of the
    empty list. *)
Definition with_empty_log (w : world) : world :=
  {| history := Document []; disk := disk w |}.

(** [op] answers in [w] what it answers on the empty log. *)
Definition as_on_empty_log {A} (op : M A) (w : world) : Prop :=
  fst (op w) = fst (op (with_empty_log w)).

(** [op] returns, it does not raise. *)
Definition returns {A} (op : M A) (w : world) : Prop :=
  exists a, fst (op w) = Ok a.

(** What the data model asks of a record of the log. *)
Definition well_formed (r : detection_record) : Prop :=
  (bbox r = None <-> ball_detected r = false)
  /\ Py.two_decimals (confidence r).

Definition log_well_formed (w : world) : Prop :=
  forall h, history w = Document h -> Forall well_formed h.

Fixpoint has_nul (p : string) : bool :=
  match p with
  | EmptyString => false
  | String c rest => (Ascii.eqb c Ascii.zero || has_nul rest)%bool
  end.

(** A file name of one path segment that names a file of the directory
    it is joined to: no slash and no NUL in it, not empty, not [.] or
    [..], and not longer than a file name may be.  For such a name
    [uploads/name] and [results/name] are files of the upload and result
    directories, and neither is the history file. *)
Definition plain_name (n : string) : bool :=
  (negb (has_slash n) && negb (has_nul n)
   && negb (String.eqb n "") && negb (String.eqb n ".")
   && negb (String.eqb n "..") && (String.length n <=? 255)%nat)%bool.

(** A request whose upload, when it carries one, has a plain file name. *)
Definition safe_request (req : request) : bool :=
  match files req !! "image" with
  | Some file =>
      (String.eqb (filename file) "" || plain_name (filename file))%bool
  | None => true
  end.

(** One call of [detect_ball], or one request served whose upload has a
    plain file name.  (The file name of an upload is used as the client
    sent it; one that climbs out of the upload directory can name any
    file, the history file included, and is outside this relation.) *)
Inductive step : world -> world -> Prop :=
| step_detect (model : image -> list (list box)) (now path : string) w :
    step w (snd (detect_ball model now path w))
| step_index (model : image -> list (list box)) (now : string) req w :
    safe_request req = true ->
    step w (snd (index model now req w))
| step_statistics w : step w (snd (get_statistics w))
| step_pdf w : step w (snd (download_pdf w))
| step_excel w : step w (snd (download_excel w)).

(** The worlds the program reaches when it starts without a history
    file. *)
Inductive reachable : world -> Prop :=
| reachable_start d : reachable {| history := Absent; disk := d |}
| reachable_step w w' : reachable w -> step w w' -> reachable w'.

(** A detection of the sports ball, as the loop tests it. *)
Definition is_ball (b : box) : bool := Z.eqb (Py.int (cls b)) SPORTS_BALL.

(** The rectangle and the caption drawn for a detection. *)
Definition marks (b : box) : list draw_op :=
  let '(x1, y1, x2, y2) := xyxy b in
  [Rectangle (Py.int x1) (Py.int y1) (Py.int x2) (Py.int y2) green 2;
   PutText (conf b) (Py.int x1) (Py.int y1 - 10) green 2].

(** The marks one list of detections leaves: those of its first ball. *)
Definition marks_of (r : list box) : list draw_op :=
  match List.find is_ball r with
  | Some b => marks b
  | None => []
  end.


(** A line of the PDF report that says the ball was found. *)
Definition found_line (e : pdf_entry) : bool :=
  String.eqb (entry_status e) "Мяч найден".

(** What the log holds for a confidence of [n] hundredths: the integer 0
    of a record without ball, or the double nearest to [n/100], which is
    what [round(conf, 2)] returns and [json] keeps. *)
Definition stores (r : detection_record) (n : Z) : Prop :=
  0 <= n <= 100
  /\ (confidence r = Py.PyInt 0 /\ n = 0
      \/ confidence r = Py.PyFloat (Binary64.rnd (n # 100))).

(** The mean of confidences given in hundredths. *)
Definition mean_of_hundredths (ns : list Z) : Q :=
  (inject_Z (fold_right Z.add 0%Z ns)
   / inject_Z (100 * Z.of_nat (length ns)))%Q.

(** A number halfway between two neighbouring hundredths. *)
Definition rounding_tie (q : Q) : Prop :=
  (q * 100 - inject_Z (Qfloor (q * 100)) == 1 # 2)%Q.

(** A record as the interpreter holds it: a float confidence is the
    double nearest to the decimal. *)
Definition as_stored (r : detection_record) : detection_record :=
  {| date := date r;
     image_name := image_name r;
     ball_detected := ball_detected r;
     confidence :=
       match confidence r with
       | Py.PyInt z => Py.PyInt z
       | Py.PyFloat q => Py.PyFloat (Binary64.rnd q)
       end;
     bbox := bbox r |}.

(** ** Sample data *)

Definition pitch : image := {| raster := 7; drawn := [] |}.

Definition player : box :=
  {| cls := 0; conf := 91 # 100; xyxy := (12, 30, 96, 240)%Q |}.

Definition near_ball : box :=
  {| cls := 32; conf := 4321 # 10000; xyxy := (601 # 2, 40, 340, 81)%Q |}.

Definition far_ball : box :=
  {| cls := 32; conf := 97 # 100; xyxy := (500, 10, 520, 30)%Q |}.

Definition crowded (_ : image) : list (list box) :=
  [[player; near_ball; far_ball]].

Definition empty_pitch (_ : image) : list (list box) := [[player]; []].

Definition uploaded : world :=
  {| history := Absent;
     disk := {[ "uploads/match.jpg" := ImageData pitch ]} |}.

Definition earlier_record : detection_record :=
  {| date := "2024-05-01 10:00:00";
     image_name := "a.jpg";
     ball_detected := true;
     confidence := Py.PyFloat (88 # 100);
     bbox := Some [1; 2; 3; 4] |}.

Definition later_record : detection_record :=
  {| date := "2024-05-01 10:05:00";
     image_name := "b.jpg";
     ball_detected := false;
     confidence := Py.PyInt 0;
     bbox := None |}.

Definition logged : world :=
  {| history := Document [earlier_record; later_record]; disk := ∅ |}.

Definition corrupt : world := {| history := Malformed; disk := ∅ |}.


Definition nothing_selected : request :=
  {| method := POST;
     files := {[ "image" := {| filename := ""; content := OtherData |} ]} |}.

Definition match_upload : request :=
  {| method := POST;
     files := {[ "image" := {| filename := "match.jpg";
                               content := ImageData pitch |} ]} |}.

Definition night_pitch : image := {| raster := 8; drawn := [] |}.

Definition rematch_upload : request :=
  {| method := POST;
     files := {[ "image" := {| filename := "match.jpg";
                               content := ImageData night_pitch |} ]} |}.

Definition notes_upload : request :=
  {| method := POST;
     files := {[ "image" := {| filename := "notes.txt";
                               content := OtherData |} ]} |}.

Definition two_frames (_ : image) : list (list box) :=
  [[player; near_ball]; [player]; [far_ball; near_ball]; []].

Definition second_upload : world :=
  {| history := Document [earlier_record; later_record];
     disk := {[ "uploads/match.jpg" := ImageData pitch ]} |}.

Definition match_record : detection_record :=
  {| date := "2024-05-01 10:10:00";
     image_name := "match.jpg";
     ball_detected := true;
     confidence := Py.PyFloat (43 # 100);
     bbox := Some [300; 40; 340; 81] |}.


Definition tie_record : detection_record :=
  {| date := "2024-05-01 09:00:00";
     image_name := "c.jpg";
     ball_detected := true;
     confidence := Py.PyFloat (87 # 100);
     bbox := Some [5; 6; 7; 8] |}.

(** The log with the confidences 0.87 and 0. *)
Definition tie_log : world :=
  {| history := Document (map as_stored [tie_record; later_record]);
     disk := ∅ |}.

(** The log with the confidences 0.88, 0 and 0.43. *)
Definition three_log : world :=
  {| history :=
       Document (map as_stored [earlier_record; later_record; match_record]);
     disk := ∅ |}.

(** The confidences of the two logs above, in hundredths. *)
Definition tie_scores : list Z := [87; 0].

Definition three_scores : list Z := [88; 0; 43].

(** * Properties *)

(** ** Numbers *)

Example round2_score : Py.round2 (8712 # 10000) = (87 # 100)%Q.
Proof. reflexivity. Qed.

Example round2_tie_to_even : Py.round2 (125 # 1000) = (3 # 25)%Q.
Proof. reflexivity. Qed.

Example round_of_int : Py.round (Py.PyInt 0) = Py.PyInt 0.
Proof. reflexivity. Qed.

Example int_truncates :
  Py.int (-(7 # 2)) = -3 /\ Py.int (7 # 2) = 3 /\ Py.int 32 = 32.
Proof. repeat split; reflexivity. Qed.

Example basename_of_upload : basename "uploads/match.jpg" = "match.jpg".
Proof. reflexivity. Qed.

Example path_join_result :
  path_join RESULT_DIR "match.jpg" = "results/match.jpg"
  /\ path_join UPLOAD_DIR "/etc/x.jpg" = "/etc/x.jpg".
Proof. split; reflexivity. Qed.




Lemma round_half_even_comp (p q : Q) :
  (p == q)%Q -> Py.round_half_even p = Py.round_half_even q.
Proof.
  intros E. unfold Py.round_half_even.
  rewrite (Qfloor_comp _ _ E).
  assert (C : ((p - inject_Z (Qfloor q) ?= 1 # 2)
               = (q - inject_Z (Qfloor q) ?= 1 # 2))%Q).
  { apply Qcompare_comp; [rewrite E |]; reflexivity. }
  rewrite C. reflexivity.
Qed.

Lemma round2_comp (p q : Q) : (p == q)%Q -> Py.round2 p = Py.round2 q.
Proof.
  intros E. unfold Py.round2.
  rewrite (round_half_even_comp (p * 100)%Q (q * 100)%Q); [reflexivity |].
  rewrite E. reflexivity.
Qed.

Lemma round2_two_decimals (q : Q) : Py.two_decimals (Py.PyFloat (Py.round2 q)).
Proof.
  simpl. exists (Py.round_half_even (q * 100)).
  unfold Py.round2. apply Qred_correct.
Qed.

Lemma round_two_decimals (x : Py.pynum) : Py.two_decimals (Py.round x).
Proof.
  destruct x as [z | q]; simpl Py.round.
  - exact I.
  - apply round2_two_decimals.
Qed.

(** The rounded value is within a half of the number. *)
Lemma round_half_even_close (q : Q) :
  (Qabs (inject_Z (Py.round_half_even q) - q) <= 1 # 2)%Q.
Proof.
  unfold Py.round_half_even.
  pose proof (Qfloor_le q) as Hlo.
  pose proof (Qlt_floor q) as Hhi.
  rewrite inject_Z_plus in Hhi. change (inject_Z 1) with 1%Q in Hhi.
  apply Qabs_Qle_condition.
  destruct (q - inject_Z (Qfloor q) ?= 1 # 2)%Q eqn:Hc;
    [apply Qeq_alt in Hc; destruct (Z.even (Qfloor q))
    | apply Qlt_alt in Hc | apply Qgt_alt in Hc];
    rewrite ?inject_Z_plus; change (inject_Z 1) with 1%Q;
    generalize dependent (inject_Z (Qfloor q)); intros f Hlo Hhi Hc;
    split; lra.
Qed.

(** [round(q, 2)] is within half a hundredth of [q]. *)
Lemma round2_close (q : Q) : (Qabs (Py.round2 q - q) <= 1 # 200)%Q.
Proof.
  unfold Py.round2. rewrite Qred_correct.
  pose proof (round_half_even_close (q * 100)) as H.
  apply Qabs_Qle_condition in H. apply Qabs_Qle_condition.
  set (z := Py.round_half_even (q * 100)) in *.
  assert (E : (z # 100 == inject_Z z * (1 # 100))%Q).
  { unfold Qeq, inject_Z, Qmult. simpl. lia. }
  rewrite E. clearbody z. generalize dependent (inject_Z z).
  intros f H. split; lra.
Qed.

(** ** The history file *)

Lemma load_history_frame (w : world) (h : list detection_record)
      (d : gmap string file_data) :
  load_history w = (Ok h, w) ->
  load_history {| history := history w; disk := d |}
  = (Ok h, {| history := history w; disk := d |}).
Proof.
  unfold load_history, json_load. simpl.
  destruct (history w); simpl; intros H; inversion H; reflexivity.
Qed.

Lemma load_history_inv (w w' : world) (h : list detection_record) :
  load_history w = (Ok h, w') ->
  w' = w /\ (history w = Document h
             \/ (h = [] /\ (history w = Absent \/ history w = ZeroLength))).
Proof.
  unfold load_history, json_load.
  destruct (history w); simpl; intros H; inversion H; auto.
Qed.

Lemma load_history_Malformed (w : world) :
  history w = Malformed -> load_history w = (Raised JSONDecodeError, w).
Proof.
  intros H. unfold load_history, json_load. rewrite H. reflexivity.
Qed.

Lemma load_history_no_file (w : world) :
  history w = Absent \/ history w = ZeroLength ->
  load_history w = (Ok [], w).
Proof.
  intros [H | H]; unfold load_history; rewrite H; reflexivity.
Qed.

Lemma append_record_ok (record : detection_record) (w : world)
      (h : list detection_record) :
  load_history w = (Ok h, w) ->
  append_record record w
  = (Ok tt, {| history := Document (h ++ [record]); disk := disk w |}).
Proof.
  intros H. unfold append_record, bind. rewrite H. reflexivity.
Qed.

Lemma append_record_inv (record : detection_record) (w w' : world) (u : unit) :
  append_record record w = (Ok u, w') ->
  exists h, load_history w = (Ok h, w)
            /\ w' = {| history := Document (h ++ [record]); disk := disk w |}.
Proof.
  unfold append_record, bind.
  destruct (load_history w) as [[h | e] w1] eqn:E; [| discriminate].
  destruct (load_history_inv _ _ _ E) as [-> _].
  unfold json_dump. intros H. inversion H. eauto.
Qed.

(** ** The detection loop *)


Lemma scan_boxes_first (pre post : list box) (b : box) (st : locals) :
  Forall not_ball pre ->
  Py.int (cls b) = SPORTS_BALL ->
  scan_boxes (pre ++ b :: post) st = take_box b st.
Proof.
  intros Hpre Hb. induction Hpre as [| x pre Hx _ IH]; simpl.
  - rewrite Hb. reflexivity.
  - destruct (Z.eqb_spec (Py.int (cls x)) SPORTS_BALL) as [E | _].
    + contradiction.
    + exact IH.
Qed.

Lemma scan_boxes_none (boxes : list box) (st : locals) :
  Forall not_ball boxes -> scan_boxes boxes st = st.
Proof.
  induction 1 as [| x boxes Hx _ IH]; simpl; [reflexivity |].
  destruct (Z.eqb_spec (Py.int (cls x)) SPORTS_BALL) as [E | _].
  - contradiction.
  - exact IH.
Qed.

Lemma scan_results_none (results : list (list box)) (st : locals) :
  Forall (Forall not_ball) results -> scan_results results st = st.
Proof.
  unfold scan_results. intros H. revert st.
  induction H as [| r results Hr _ IH]; intros st; simpl; [reflexivity |].
  rewrite (scan_boxes_none r st Hr). apply IH.
Qed.


Lemma take_box_coherent (b : box) (st : locals) : coherent (take_box b st).
Proof.
  unfold take_box. destruct (xyxy b) as [[[x1 y1] x2] y2].
  split; simpl; [split |]; discriminate.
Qed.

Lemma scan_boxes_coherent (boxes : list box) (st : locals) :
  coherent st -> coherent (scan_boxes boxes st).
Proof.
  intros H. induction boxes as [| b boxes IH]; simpl; [exact H |].
  destruct (Z.eqb (Py.int (cls b)) SPORTS_BALL).
  - apply take_box_coherent.
  - exact IH.
Qed.

Lemma scan_results_coherent (results : list (list box)) (st : locals) :
  coherent st -> coherent (scan_results results st).
Proof.
  unfold scan_results. revert st.
  induction results as [| r results IH]; intros st H; simpl; [exact H |].
  apply IH. apply scan_boxes_coherent. exact H.
Qed.

Lemma initial_locals_coherent (im : image) : coherent (initial_locals im).
Proof. split; simpl; [split |]; reflexivity. Qed.

(** ** [detect_ball] as one step *)

Lemma detect_ball_run (model : image -> list (list box)) (now path : string)
      (w : world) (im : image) (h : list detection_record) :
  imread path w = Some im ->
  load_history w = (Ok h, w) ->
  let st := scan_results (model im) (initial_locals im) in
  let record := make_record now (basename path) st in
  detect_ball model now path w
  = (Ok (basename path, record),
     {| history := Document (h ++ [record]);
        disk := <[path_join RESULT_DIR (basename path)
                  := ImageData (cur_image st)]> (disk w) |}).
Proof.
  intros Him Hh st record. unfold detect_ball. rewrite Him.
  unfold bind at 1. unfold imwrite.
  unfold bind. fold st. fold record.
  rewrite (append_record_ok record _ h (load_history_frame w h _ Hh)).
  reflexivity.
Qed.

Lemma detect_ball_inv (model : image -> list (list box)) (now path : string)
      (w w' : world) (out : string * detection_record) :
  detect_ball model now path w = (Ok out, w') ->
  exists im h,
    imread path w = Some im /\ load_history w = (Ok h, w).
Proof.
  unfold detect_ball.
  destruct (imread path w) as [im |] eqn:Him; [| discriminate].
  unfold bind at 1. unfold imwrite. unfold bind.
  match goal with
  | |- context [append_record ?r ?w1] =>
      destruct (append_record r w1) as [[u | e] w2] eqn:E; [| discriminate]
  end.
  intros _. apply append_record_inv in E. destruct E as (h & Hh & _).
  exists im, h. split; [reflexivity |].
  apply load_history_inv in Hh. destruct Hh as [_ Hh]. simpl in Hh.
  unfold load_history, json_load.
  destruct Hh as [Hd | [-> [Hd | Hd]]]; rewrite Hd; reflexivity.
Qed.

(** ** Statistics *)



Lemma count_found_from (h : list detection_record) (a : Z) :
  fold_left (fun acc r => if ball_detected r then acc + 1 else acc) h a
  = a + Z.of_nat (records_found h).
Proof.
  unfold records_found. revert a.
  induction h as [| r h IH]; intros a; simpl.
  - lia.
  - rewrite IH. destruct (ball_detected r); simpl length; lia.
Qed.

Lemma count_found_spec (h : list detection_record) :
  count_found h = Z.of_nat (records_found h).
Proof. unfold count_found. rewrite count_found_from. lia. Qed.

Lemma records_found_le (h : list detection_record) :
  (records_found h <= length h)%nat.
Proof.
  unfold records_found. induction h as [| r h IH]; simpl; [lia |].
  destruct (ball_detected r); simpl; lia.
Qed.

Lemma divide_nonzero (x : Py.pynum) (total : Z) :
  total <> 0 ->
  divide x total = ret (Py.PyFloat (Py.value x / inject_Z total)).
Proof.
  intros Hne. unfold divide, Py.truediv. simpl Py.value.
  destruct (Qeq_bool (inject_Z total) 0) eqn:E; [| reflexivity].
  apply Qeq_bool_eq in E. exfalso. apply Hne.
  apply inject_Z_injective. exact E.
Qed.




Lemma get_statistics_run (w : world) (h : list detection_record) :
  load_history w = (Ok h, w) ->
  get_statistics w = (Ok (statistics_of h), w).
Proof.
  intros Hh. unfold get_statistics, bind at 1. rewrite Hh.
  destruct h as [| r h].
  - reflexivity.
  - unfold bind.
    replace (0 <? Z.of_nat (length (r :: h)))%Z with true
      by (symmetry; apply Z.ltb_lt; simpl length; lia).
    rewrite divide_nonzero by (simpl length; lia).
    reflexivity.
Qed.

Lemma download_pdf_run (w : world) (h : list detection_record) :
  load_history w = (Ok h, w) ->
  download_pdf w
  = (Ok {| pdf_title := "Отчёт по анализу положения футбольного мяча";
           pdf_entries := map pdf_line h;
           pdf_summary :=
             {| sum_total_images := Z.of_nat (length h);
                sum_found := count_found h;
                sum_not_found := Z.of_nat (length h) - count_found h;
                sum_avg_confidence := report_average h |} |}, w).
Proof.
  intros Hh. unfold download_pdf, bind at 1. rewrite Hh.
  destruct h as [| r h].
  - reflexivity.
  - unfold bind.
    replace (Z.of_nat (length (r :: h)) =? 0)%Z with false
      by (symmetry; apply Z.eqb_neq; simpl length; lia).
    simpl negb. cbv iota.
    rewrite divide_nonzero by (simpl length; lia).
    reflexivity.
Qed.

Lemma download_excel_run (w : world) (h : list detection_record) :
  load_history w = (Ok h, w) ->
  download_excel w
  = (Ok {| excel_rows := h;
           excel_total :=
             {| row_date := "Итог";
                row_image := "";
                row_ball_detected := count_found h;
                row_confidence := report_average h;
                row_explanation :=
                  {| sum_total_images := Z.of_nat (length h);
                     sum_found := count_found h;
                     sum_not_found := Z.of_nat (length h) - count_found h;
                     sum_avg_confidence := report_average h |} |} |}, w).
Proof.
  intros Hh. unfold download_excel, bind at 1. rewrite Hh.
  destruct h as [| r h].
  - reflexivity.
  - unfold bind.
    replace (Z.of_nat (length (r :: h)) =? 0)%Z with false
      by (symmetry; apply Z.eqb_neq; simpl length; lia).
    simpl negb. cbv iota.
    rewrite divide_nonzero by (simpl length; lia).
    reflexivity.
Qed.

(** ** The claims about the statistics *)

(** C5: on a log of N records of which F found a ball, [get_statistics]
    returns found = F, not_found = N - F and total_images = N, so that
    found + not_found = total_images. *)
Theorem statistics_counts (w : world) (h : list detection_record) :
  load_history w = (Ok h, w) ->
  exists s,
    get_statistics w = (Ok s, w)
    /\ found s = Z.of_nat (records_found h)
    /\ not_found s = Z.of_nat (length h) - Z.of_nat (records_found h)
    /\ total_images s = Z.of_nat (length h)
    /\ found s + not_found s = total_images s
    /\ 0 <= not_found s.
Proof.
  intros Hh. eexists. split; [apply get_statistics_run; exact Hh |].
  cbn [found not_found total_images statistics_of]. rewrite count_found_spec.
  pose proof (records_found_le h). repeat split; lia.
Qed.

Lemma statistics_counts_witness :
  exists s,
    get_statistics logged = (Ok s, logged)
    /\ found s = Z.of_nat (records_found [earlier_record; later_record])
    /\ not_found s
       = Z.of_nat (length [earlier_record; later_record])
         - Z.of_nat (records_found [earlier_record; later_record])
    /\ total_images s = Z.of_nat (length [earlier_record; later_record])
    /\ found s + not_found s = total_images s
    /\ 0 <= not_found s.
Proof.
  apply (statistics_counts logged [earlier_record; later_record]).
  reflexivity.
Defined.

(** C6: on an empty log [get_statistics] returns total_images = 0,
    found = 0, not_found = 0 and avg_confidence = 0, and no division by
    zero is raised. *)
Theorem statistics_of_empty_log (w : world) :
  load_history w = (Ok [], w) ->
  get_statistics w
  = (Ok {| total_images := 0; found := 0; not_found := 0;
           avg_confidence := Py.PyInt 0 |}, w).
Proof.
  intros Hh. rewrite (get_statistics_run w [] Hh). reflexivity.
Qed.

Lemma statistics_of_empty_log_witness :
  get_statistics uploaded
  = (Ok {| total_images := 0; found := 0; not_found := 0;
           avg_confidence := Py.PyInt 0 |}, uploaded).
Proof.
  apply (statistics_of_empty_log uploaded). reflexivity.
Defined.



Example statistics_of_one_record :
  fst (get_statistics
         {| history :=
              Document [{| date := "2024-05-01 09:00:00";
                           image_name := "c.jpg";
                           ball_detected := true;
                           confidence := Py.PyFloat (87 # 100);
                           bbox := Some [5; 6; 7; 8] |}];
            disk := ∅ |})
  = Ok {| total_images := 1; found := 1; not_found := 0;
          avg_confidence := Py.PyFloat (87 # 100) |}.
Proof. reflexivity. Qed.

Example statistics_round_the_mean :
  fst (get_statistics
         {| history :=
              Document [earlier_record; later_record; later_record];
            disk := ∅ |})
  = Ok {| total_images := 3; found := 1; not_found := 2;
          avg_confidence := Py.PyFloat (29 # 100) |}.
Proof. reflexivity. Qed.

(** ** The claims about [detect_ball] *)

(** C1: when the detections of the image hold a sports ball, [detect_ball]
    takes the first one in iteration order whatever follows it: the record
    has a bounding box, the coordinates of that detection, and as
    confidence the score of that detection rounded to two decimals.  The
    model is given one image and answers with one list of boxes. *)
Theorem detect_takes_first_ball
        (model : image -> list (list box)) (now path : string)
        (w : world) (im : image) (h : list detection_record)
        (pre post : list box) (b : box) :
  imread path w = Some im ->
  load_history w = (Ok h, w) ->
  model im = [(pre ++ b :: post)%list] ->
  Forall not_ball pre ->
  Py.int (cls b) = SPORTS_BALL ->
  exists record w',
    detect_ball model now path w = (Ok (basename path, record), w')
    /\ ball_detected record = true
    /\ bbox record = Some (box_coordinates b)
    /\ bbox record <> None
    /\ confidence record = Py.PyFloat (Py.round2 (conf b)).
Proof.
  intros Him Hh Hm Hpre Hb.
  pose proof (detect_ball_run model now path w im h Him Hh) as Hrun.
  cbv zeta in Hrun. rewrite Hm in Hrun.
  unfold scan_results in Hrun. cbn [fold_left] in Hrun.
  rewrite (scan_boxes_first pre post b _ Hpre Hb) in Hrun.
  do 2 eexists. split; [exact Hrun |].
  unfold make_record, take_box, box_coordinates.
  destruct (xyxy b) as [[[x1 y1] x2] y2]. cbn.
  repeat split; try reflexivity. discriminate.
Qed.

Lemma detect_takes_first_ball_witness :
  exists record w',
    detect_ball crowded "2024-05-01 10:10:00" "uploads/match.jpg" uploaded
    = (Ok (basename "uploads/match.jpg", record), w')
    /\ ball_detected record = true
    /\ bbox record = Some (box_coordinates near_ball)
    /\ bbox record <> None
    /\ confidence record = Py.PyFloat (Py.round2 (conf near_ball)).
Proof.
  apply (detect_takes_first_ball crowded "2024-05-01 10:10:00"
           "uploads/match.jpg" uploaded pitch [] [player] [far_ball]
           near_ball).
  - vm_compute. reflexivity.
  - reflexivity.
  - reflexivity.
  - constructor; [| constructor]. unfold not_ball. vm_compute. discriminate.
  - reflexivity.
Defined.

Example first_ball_record :
  fst (detect_ball crowded "2024-05-01 10:10:00" "uploads/match.jpg"
         uploaded)
  = Ok ("match.jpg",
        {| date := "2024-05-01 10:10:00";
           image_name := "match.jpg";
           ball_detected := true;
           confidence := Py.PyFloat (43 # 100);
           bbox := Some [300; 40; 340; 81] |}).
Proof. vm_compute. reflexivity. Qed.

(** C2: when no detection of the image is a sports ball, [detect_ball]
    produces a record with ball_detected = false, confidence = 0 and no
    bounding box, and the log afterwards is the log before with that
    record appended at its end: exactly one record more. *)
Theorem detect_without_ball
        (model : image -> list (list box)) (now path : string)
        (w : world) (im : image) (h : list detection_record) :
  imread path w = Some im ->
  load_history w = (Ok h, w) ->
  Forall (Forall not_ball) (model im) ->
  exists record w',
    detect_ball model now path w = (Ok (basename path, record), w')
    /\ ball_detected record = false
    /\ confidence record = Py.PyInt 0
    /\ bbox record = None
    /\ load_history w' = (Ok (h ++ [record])%list, w')
    /\ length (h ++ [record])%list = S (length h).
Proof.
  intros Him Hh Hnone.
  pose proof (detect_ball_run model now path w im h Him Hh) as Hrun.
  cbv zeta in Hrun. rewrite (scan_results_none _ _ Hnone) in Hrun.
  do 2 eexists. split; [exact Hrun |].
  cbn. repeat split; try reflexivity.
  rewrite length_app. simpl. lia.
Qed.

Lemma detect_without_ball_witness :
  exists record w',
    detect_ball empty_pitch "2024-05-01 10:10:00" "uploads/match.jpg"
      uploaded
    = (Ok (basename "uploads/match.jpg", record), w')
    /\ ball_detected record = false
    /\ confidence record = Py.PyInt 0
    /\ bbox record = None
    /\ load_history w' = (Ok ([] ++ [record])%list, w')
    /\ length ([] ++ [record])%list = S (length (@nil detection_record)).
Proof.
  apply (detect_without_ball empty_pitch "2024-05-01 10:10:00"
           "uploads/match.jpg" uploaded pitch []).
  - vm_compute. reflexivity.
  - reflexivity.
  - repeat constructor. unfold not_ball. vm_compute. discriminate.
Defined.

(** C4: every record [detect_ball] writes to the log has a bounding box
    exactly when ball_detected is true, and a confidence rounded to two
    decimals. *)
Theorem written_record_invariant
        (model : image -> list (list box)) (now path : string)
        (w w' : world) (name : string) (record : detection_record) :
  detect_ball model now path w = (Ok (name, record), w') ->
  (exists h, load_history w = (Ok h, w)
             /\ history w' = Document (h ++ [record])%list)
  /\ (bbox record = None <-> ball_detected record = false)
  /\ Py.two_decimals (confidence record).
Proof.
  intros Hd.
  destruct (detect_ball_inv _ _ _ _ _ _ Hd) as (im & h & Him & Hh).
  pose proof (detect_ball_run model now path w im h Him Hh) as Hrun.
  cbv zeta in Hrun. rewrite Hrun in Hd. inversion Hd; subst. clear Hd.
  split; [exists h; split; [exact Hh | reflexivity] |].
  pose proof (scan_results_coherent (model im) _
                (initial_locals_coherent im)) as [Hbox _].
  split; [exact Hbox |].
  cbn [make_record confidence]. apply round_two_decimals.
Qed.

Lemma written_record_invariant_witness :
  (exists h, load_history uploaded = (Ok h, uploaded)
             /\ history
                  (snd (detect_ball crowded "2024-05-01 10:10:00"
                          "uploads/match.jpg" uploaded))
                = Document
                    (h ++ [make_record "2024-05-01 10:10:00" "match.jpg"
                             (take_box near_ball (initial_locals pitch))])%list)
  /\ (bbox (make_record "2024-05-01 10:10:00" "match.jpg"
              (take_box near_ball (initial_locals pitch))) = None
      <-> ball_detected
            (make_record "2024-05-01 10:10:00" "match.jpg"
               (take_box near_ball (initial_locals pitch))) = false)
  /\ Py.two_decimals
       (confidence (make_record "2024-05-01 10:10:00" "match.jpg"
                      (take_box near_ball (initial_locals pitch)))).
Proof.
  apply (written_record_invariant crowded "2024-05-01 10:10:00"
           "uploads/match.jpg" uploaded
           (snd (detect_ball crowded "2024-05-01 10:10:00"
                   "uploads/match.jpg" uploaded))
           "match.jpg").
  vm_compute. reflexivity.
Defined.

(** The [break] leaves the inner loop only: were the model to answer
    with several lists of boxes, a ball of a later list would replace
    the one taken from an earlier list. *)
Example later_list_replaces_earlier :
  cur_bbox (scan_results [[near_ball]; [far_ball]] (initial_locals pitch))
  = Some (box_coordinates far_ball).
Proof. reflexivity. Qed.

(** ** The claims about the history log *)

(** C7: appending a record through the log-write path of [detect_ball]
    and reloading the file gives the earlier records, unchanged and in
    order, followed by the appended record. *)
Theorem append_then_reload (record : detection_record) (w : world)
        (h : list detection_record) :
  load_history w = (Ok h, w) ->
  exists w',
    append_record record w = (Ok tt, w')
    /\ load_history w' = (Ok (h ++ [record])%list, w')
    /\ last (h ++ [record])%list = Some record
    /\ take (length h) (h ++ [record])%list = h.
Proof.
  intros Hh. eexists. split; [apply append_record_ok; exact Hh |].
  split; [reflexivity |]. split.
  - apply last_snoc.
  - rewrite take_app_length. reflexivity.
Qed.

Lemma append_then_reload_witness :
  exists w',
    append_record later_record logged = (Ok tt, w')
    /\ load_history w'
       = (Ok ([earlier_record; later_record] ++ [later_record])%list, w')
    /\ last ([earlier_record; later_record] ++ [later_record])%list
       = Some later_record
    /\ take (length [earlier_record; later_record])
         ([earlier_record; later_record] ++ [later_record])%list
       = [earlier_record; later_record].
Proof.
  apply (append_then_reload later_record logged
           [earlier_record; later_record]).
  reflexivity.
Defined.

(** A history file that does not decode makes every operation that
    reads it raise. *)
Lemma malformed_history_raises
      (model : image -> list (list box)) (now : string) (w : world) :
  history w = Malformed ->
  (forall record,
      append_record record w = (Raised JSONDecodeError, w))
  /\ get_statistics w = (Raised JSONDecodeError, w)
  /\ download_pdf w = (Raised JSONDecodeError, w)
  /\ download_excel w = (Raised JSONDecodeError, w)
  /\ (forall req, method req = GET ->
                  index model now req w = (Raised JSONDecodeError, w)).
Proof.
  intros Hm. pose proof (load_history_Malformed w Hm) as Hl.
  repeat split; intros;
    unfold append_record, get_statistics, download_pdf, download_excel,
      index;
    try match goal with H : method _ = GET |- _ => rewrite H end;
    unfold bind, ret; rewrite Hl; reflexivity.
Qed.

(** C8, as the spec states it, fails: a history file that is there but
    does not decode is not treated as an empty history, the statistics
    raise. *)
Lemma corrupt_history_is_fatal :
  fst (get_statistics corrupt) = Raised JSONDecodeError
  /\ fst (get_statistics corrupt) <> fst (get_statistics (with_empty_log corrupt))
  /\ ~ returns get_statistics corrupt.
Proof.
  split; [reflexivity |]. split; [discriminate |].
  intros [s Hs]. discriminate Hs.
Qed.

(** ** The index route *)

Lemma index_tail (result : option (string * detection_record)) (w : world)
      (h : list detection_record) :
  load_history w = (Ok h, w) ->
  (history <- load_history ;;
   stats <- get_statistics ;;
   ret {| page_result := result;
          page_history := history;
          page_stats := stats |}) w
  = (Ok {| page_result := result;
           page_history := h;
           page_stats := statistics_of h |}, w).
Proof.
  intros Hh. unfold bind. rewrite Hh, (get_statistics_run w h Hh).
  reflexivity.
Qed.

Lemma index_get (model : image -> list (list box)) (now : string)
      (req : request) (w : world) (h : list detection_record) :
  method req = GET ->
  load_history w = (Ok h, w) ->
  index model now req w
  = (Ok {| page_result := None;
           page_history := h;
           page_stats := statistics_of h |}, w).
Proof.
  intros Hm Hh. unfold index. rewrite Hm.
  unfold bind at 1. unfold ret at 1. apply index_tail. exact Hh.
Qed.

Lemma index_post_missing (model : image -> list (list box)) (now : string)
      (req : request) (w : world) :
  method req = POST ->
  files req !! "image" = None ->
  index model now req w = (Raised BadRequestKeyError, w).
Proof.
  intros Hm Hf. unfold index, get_file. rewrite Hm, Hf. reflexivity.
Qed.

Lemma index_post_nothing (model : image -> list (list box)) (now : string)
      (req : request) (w : world) (file : file_storage)
      (h : list detection_record) :
  method req = POST ->
  files req !! "image" = Some file ->
  filename file = "" ->
  load_history w = (Ok h, w) ->
  index model now req w
  = (Ok {| page_result := None;
           page_history := h;
           page_stats := statistics_of h |}, w).
Proof.
  intros Hm Hf Hn Hh. unfold index, get_file. rewrite Hm, Hf.
  unfold bind at 1. unfold bind at 1. unfold ret at 1.
  unfold file_truthy. rewrite Hn. simpl negb. cbv iota. unfold ret at 1.
  apply index_tail. exact Hh.
Qed.

Lemma index_post_file (model : image -> list (list box)) (now : string)
      (req : request) (w : world) (file : file_storage) :
  method req = POST ->
  files req !! "image" = Some file ->
  filename file <> "" ->
  let path := path_join UPLOAD_DIR (filename file) in
  let w1 := {| history := history w;
               disk := <[path := content file]> (disk w) |} in
  index model now req w
  = (r <- detect_ball model now path ;;
     history <- load_history ;;
     stats <- get_statistics ;;
     ret {| page_result := Some r;
            page_history := history;
            page_stats := stats |}) w1.
Proof.
  intros Hm Hf Hn path w1.
  unfold index, get_file, bind, ret, save, file_truthy.
  rewrite Hm, Hf. cbv beta iota.
  destruct (String.eqb_spec (filename file) "") as [E | _]; [contradiction |].
  cbn [negb]. cbv beta iota. fold path. fold w1.
  destruct (detect_ball model now path w1) as [[r | e] w2]; reflexivity.
Qed.

Lemma detect_ball_unreadable (model : image -> list (list box))
      (now path : string) (w : world) :
  imread path w = None -> detect_ball model now path w = (Raised CvError, w).
Proof. intros H. unfold detect_ball. rewrite H. reflexivity. Qed.

Lemma index_no_file (model : image -> list (list box)) (now : string)
      (req : request) (w : world) :
  history w = Absent \/ history w = ZeroLength ->
  as_on_empty_log (index model now req) w.
Proof.
  intros Hw. unfold as_on_empty_log.
  pose proof (load_history_no_file w Hw) as Hl.
  assert (Hl0 : load_history (with_empty_log w) = (Ok [], with_empty_log w))
    by reflexivity.
  destruct (method req) eqn:Hm.
  - rewrite (index_get model now req w [] Hm Hl),
      (index_get model now req _ [] Hm Hl0). reflexivity.
  - destruct (files req !! "image") as [file |] eqn:Hf.
    + destruct (String.eqb_spec (filename file) "") as [Hn | Hn].
      * rewrite (index_post_nothing model now req w file [] Hm Hf Hn Hl),
          (index_post_nothing model now req _ file [] Hm Hf Hn Hl0).
        reflexivity.
      * rewrite (index_post_file model now req w file Hm Hf Hn),
          (index_post_file model now req _ file Hm Hf Hn).
        cbv zeta. unfold with_empty_log. cbn [history disk].
        set (path := path_join UPLOAD_DIR (filename file)).
        set (d := <[path := content file]> (disk w)).
        unfold bind at 1. unfold bind at 3.
        destruct (imread path {| history := history w; disk := d |})
          as [im |] eqn:Him.
        -- assert (Him0 : imread path {| history := Document []; disk := d |}
                          = Some im) by exact Him.
           rewrite (detect_ball_run model now path _ im [] Him
                      (load_history_frame w [] d Hl)).
           rewrite (detect_ball_run model now path _ im [] Him0 eq_refl).
           reflexivity.
        -- assert (Him0 : imread path {| history := Document []; disk := d |}
                          = None) by exact Him.
           rewrite (detect_ball_unreadable model now path _ Him),
             (detect_ball_unreadable model now path _ Him0).
           reflexivity.
    + rewrite (index_post_missing model now req w Hm Hf),
        (index_post_missing model now req _ Hm Hf). reflexivity.
Qed.

Lemma detect_ball_malformed (model : image -> list (list box))
      (now path : string) (w : world) :
  history w = Malformed -> ~ returns (detect_ball model now path) w.
Proof.
  intros Hm [out Hout].
  destruct (detect_ball model now path w) as [o w'] eqn:E.
  simpl in Hout. subst o.
  destruct (detect_ball_inv model now path w w' out E) as (im & h & _ & Hh).
  rewrite (load_history_Malformed w Hm) in Hh. discriminate Hh.
Qed.

Lemma index_malformed (model : image -> list (list box)) (now : string)
      (req : request) (w : world) :
  history w = Malformed -> ~ returns (index model now req) w.
Proof.
  intros Hw [a Ha].
  pose proof (load_history_Malformed w Hw) as Hl.
  destruct (method req) eqn:Hm.
  - destruct (malformed_history_raises model now w Hw) as (_ & _ & _ & _ & Hi).
    rewrite (Hi req Hm) in Ha. discriminate Ha.
  - destruct (files req !! "image") as [file |] eqn:Hf.
    + destruct (String.eqb_spec (filename file) "") as [Hn | Hn].
      * revert Ha. unfold index, get_file. rewrite Hm, Hf.
        unfold bind at 1. unfold bind at 1. unfold ret at 1.
        unfold file_truthy. rewrite Hn.
        change (negb (String.eqb "" "")) with false. cbv iota.
        unfold ret at 1. cbv beta iota.
        unfold bind at 1. rewrite Hl. discriminate.
      * rewrite (index_post_file model now req w file Hm Hf Hn) in Ha.
        cbv zeta in Ha. unfold bind at 1 in Ha.
        match type of Ha with
        | context [detect_ball model now ?p ?w1] =>
            pose proof (detect_ball_malformed model now p w1 Hw) as Hd;
            destruct (detect_ball model now p w1) as [[r | e] w2] eqn:E
        end.
        -- apply Hd. exists r. rewrite E. reflexivity.
        -- discriminate Ha.
    + rewrite (index_post_missing model now req w Hm Hf) in Ha.
      discriminate Ha.
Qed.

(** C8, amended: a history file that is missing or has length zero is
    treated as an empty history by every operation that reads it (the
    append of [detect_ball], the statistics, the two reports and the
    index page): each answers what it answers on the empty log, and the
    reading does not make it fail.  A history file that has content and
    does not decode is not treated so: the append, the statistics and the
    two reports raise the decoder's error, and the index page fails for
    every request. *)
Theorem missing_history_is_empty_history
        (model : image -> list (list box)) (now : string) (w : world) :
  (history w = Absent \/ history w = ZeroLength ->
   (forall record,
       append_record record w = append_record record (with_empty_log w)
       /\ returns (append_record record) w)
   /\ (as_on_empty_log get_statistics w /\ returns get_statistics w)
   /\ (as_on_empty_log download_pdf w /\ returns download_pdf w)
   /\ (as_on_empty_log download_excel w /\ returns download_excel w)
   /\ (forall req, as_on_empty_log (index model now req) w)
   /\ (forall req, method req = GET -> returns (index model now req) w))
  /\ (history w = Malformed ->
      (forall record,
          append_record record w = (Raised JSONDecodeError, w))
      /\ get_statistics w = (Raised JSONDecodeError, w)
      /\ download_pdf w = (Raised JSONDecodeError, w)
      /\ download_excel w = (Raised JSONDecodeError, w)
      /\ (forall req, ~ returns (index model now req) w)).
Proof.
  split.
  - intros Hw. pose proof (load_history_no_file w Hw) as Hl.
    assert (Hl0 : load_history (with_empty_log w)
                  = (Ok [], with_empty_log w)) by reflexivity.
    unfold as_on_empty_log, returns.
    split; [intros record | split; [| split; [| split; [| split]]]].
    + rewrite (append_record_ok record w [] Hl),
        (append_record_ok record _ [] Hl0). split; [reflexivity | eauto].
    + rewrite (get_statistics_run w [] Hl), (get_statistics_run _ [] Hl0).
      split; [reflexivity | eauto].
    + rewrite (download_pdf_run w [] Hl), (download_pdf_run _ [] Hl0).
      split; [reflexivity | eauto].
    + rewrite (download_excel_run w [] Hl), (download_excel_run _ [] Hl0).
      split; [reflexivity | eauto].
    + intros req. apply index_no_file. exact Hw.
    + intros req Hm. rewrite (index_get model now req w [] Hm Hl). eauto.
  - intros Hw.
    destruct (malformed_history_raises model now w Hw)
      as (Ha & Hs & Hp & He & _).
    repeat split; try assumption.
    intros req. apply index_malformed. exact Hw.
Qed.

Lemma missing_history_is_empty_history_witness :
  ((forall record,
       append_record record uploaded
       = append_record record (with_empty_log uploaded)
       /\ returns (append_record record) uploaded)
   /\ (as_on_empty_log get_statistics uploaded
       /\ returns get_statistics uploaded)
   /\ (as_on_empty_log download_pdf uploaded
       /\ returns download_pdf uploaded)
   /\ (as_on_empty_log download_excel uploaded
       /\ returns download_excel uploaded)
   /\ (forall req, as_on_empty_log (index crowded "2024-05-01" req) uploaded)
   /\ (forall req, method req = GET ->
                   returns (index crowded "2024-05-01" req) uploaded))
  /\ ((forall record,
          append_record record corrupt = (Raised JSONDecodeError, corrupt))
      /\ get_statistics corrupt = (Raised JSONDecodeError, corrupt)
      /\ download_pdf corrupt = (Raised JSONDecodeError, corrupt)
      /\ download_excel corrupt = (Raised JSONDecodeError, corrupt)
      /\ (forall req, ~ returns (index crowded "2024-05-01" req) corrupt)).
Proof.
  split.
  - apply (proj1 (missing_history_is_empty_history
                    crowded "2024-05-01" uploaded)).
    left. reflexivity.
  - apply (proj2 (missing_history_is_empty_history
                    crowded "2024-05-01" corrupt)).
    reflexivity.
Defined.




Example nothing_selected_renders_page :
  index crowded "2024-05-01 10:10:00" nothing_selected logged
  = (Ok {| page_result := None;
           page_history := [earlier_record; later_record];
           page_stats :=
             {| total_images := 2; found := 1; not_found := 1;
                avg_confidence := Py.PyFloat (11 # 25) |} |}, logged).
Proof. vm_compute. reflexivity. Qed.

(** ** The log as the program builds it *)

Lemma load_history_state (w : world) : snd (load_history w) = w.
Proof.
  unfold load_history, json_load. destruct (history w); reflexivity.
Qed.

Lemma divide_state (x : Py.pynum) (total : Z) (w : world) :
  snd (divide x total w) = w.
Proof.
  unfold divide. destruct (Py.truediv x (Py.PyInt total)); reflexivity.
Qed.

Ltac read_only :=
  unfold bind;
  match goal with
  | |- context [load_history ?w] =>
      let H := fresh in
      pose proof (load_history_state w) as H;
      destruct (load_history w) as [[? | ?] ?]; simpl in H; subst;
      [| reflexivity]
  end;
  repeat match goal with
    | |- context [if ?c then _ else _] => destruct c
    | |- context [divide ?x ?t ?w] =>
        let H := fresh in
        pose proof (divide_state x t w) as H;
        destruct (divide x t w) as [[? | ?] ?]; simpl in H; subst
    end;
  reflexivity.

Lemma get_statistics_state (w : world) : snd (get_statistics w) = w.
Proof. unfold get_statistics. read_only. Qed.

Lemma download_pdf_state (w : world) : snd (download_pdf w) = w.
Proof. unfold download_pdf. read_only. Qed.

Lemma download_excel_state (w : world) : snd (download_excel w) = w.
Proof. unfold download_excel. read_only. Qed.

Lemma made_record_well_formed (now name : string) (st : locals) :
  coherent st -> well_formed (make_record now name st).
Proof.
  intros [Hbox _]. split; [exact Hbox |].
  cbn [make_record confidence]. apply round_two_decimals.
Qed.

Lemma detect_ball_keeps_log (model : image -> list (list box))
      (now path : string) (w : world) :
  log_well_formed w -> log_well_formed (snd (detect_ball model now path w)).
Proof.
  intros Hw. unfold detect_ball.
  destruct (imread path w) as [im |]; [| exact Hw].
  set (st := scan_results (model im) (initial_locals im)).
  assert (Hr : well_formed (make_record now (basename path) st)).
  { apply made_record_well_formed, scan_results_coherent,
      initial_locals_coherent. }
  unfold bind, imwrite, append_record, bind, load_history, json_load,
    json_dump, ret, log_well_formed in *.
  cbn [history]. destruct (history w) as [| | h0 |] eqn:E;
    cbn; intros h Hh; inversion Hh; subst.
  - constructor; [exact Hr | constructor].
  - constructor; [exact Hr | constructor].
  - apply Forall_app. split; [apply Hw; reflexivity |].
    constructor; [exact Hr | constructor].
Qed.

Lemma index_keeps_log (model : image -> list (list box)) (now : string)
      (req : request) (w : world) :
  log_well_formed w -> log_well_formed (snd (index model now req w)).
Proof.
  intros Hw.
  assert (Htail : forall result w0,
             snd ((history <- load_history ;;
                   stats <- get_statistics ;;
                   ret {| page_result := result;
                          page_history := history;
                          page_stats := stats |}) w0) = w0).
  { intros result w0. unfold bind.
    pose proof (load_history_state w0) as H1.
    destruct (load_history w0) as [[h | e] w1]; simpl in H1; subst;
      [| reflexivity].
    pose proof (get_statistics_state w0) as H2.
    destruct (get_statistics w0) as [[s | e] w2]; simpl in H2; subst;
      reflexivity. }
  destruct (method req) eqn:Hm.
  - unfold index. rewrite Hm. unfold bind at 1. unfold ret at 1.
    cbv beta iota. pose proof (Htail None w) as X. rewrite X. exact Hw.
  - destruct (files req !! "image") as [file |] eqn:Hf.
    + destruct (String.eqb_spec (filename file) "") as [Hn | Hn].
      * unfold index, get_file. rewrite Hm, Hf.
        unfold bind at 1. unfold bind at 1. unfold ret at 1.
        unfold file_truthy. rewrite Hn.
        change (negb (String.eqb "" "")) with false. cbv iota.
        unfold ret at 1. cbv beta iota.
        pose proof (Htail None w) as X. rewrite X. exact Hw.
      * rewrite (index_post_file model now req w file Hm Hf Hn).
        cbv zeta. unfold bind at 1.
        match goal with
        | |- context [detect_ball model now ?p ?w1] =>
            pose proof (detect_ball_keeps_log model now p w1 Hw) as Hd;
            destruct (detect_ball model now p w1) as [[r | e] w2]
        end; simpl in Hd;
          [pose proof (Htail (Some r) w2) as X; rewrite X |]; exact Hd.
    + rewrite (index_post_missing model now req w Hm Hf). exact Hw.
Qed.

Lemma step_keeps_log (w w' : world) :
  step w w' -> log_well_formed w -> log_well_formed w'.
Proof.
  intros Hs Hw. destruct Hs.
  - apply detect_ball_keeps_log. exact Hw.
  - apply index_keeps_log. exact Hw.
  - rewrite get_statistics_state. exact Hw.
  - rewrite download_pdf_state. exact Hw.
  - rewrite download_excel_state. exact Hw.
Qed.

Lemma reachable_keeps_log (w : world) : reachable w -> log_well_formed w.
Proof.
  induction 1 as [d | w0 w1 _ IH Hs].
  - intros h0 H0. discriminate H0.
  - apply (step_keeps_log w0 w1 Hs). exact IH.
Qed.

(** X14: the invariant of the data model.  Whatever calls and requests
    were served since a start without history file, in whatever order and
    whether they failed or not, as long as the uploads had plain file
    names, every record of a log that reads has a bounding box exactly
    when it found a ball, and a confidence with two decimals. *)
Lemma reachable_log_well_formed (w : world) (h : list detection_record) :
  reachable w -> load_history w = (Ok h, w) -> Forall well_formed h.
Proof.
  intros Hr Hh.
  pose proof (reachable_keeps_log w Hr) as Hw.
  destruct (load_history_inv _ _ _ Hh) as [_ [Hd | [-> _]]].
  - apply Hw. exact Hd.
  - constructor.
Qed.

Lemma reachable_log_well_formed_witness : Forall well_formed [match_record].
Proof.
  apply (reachable_log_well_formed
           (snd (index crowded "2024-05-01 10:10:00" match_upload
                   uploaded))).
  - exact (reachable_step uploaded _ (reachable_start (disk uploaded))
             (step_index crowded "2024-05-01 10:10:00" match_upload
                uploaded eq_refl)).
  - vm_compute. reflexivity.
Defined.

(** * Further properties of the code *)

(** ** Paths *)

Lemma basename_from_app (p q acc : string) :
  basename_from acc (p ++ q) = basename_from (basename_from acc p) q.
Proof.
  revert acc. induction p as [| c p IH]; intros acc; simpl.
  - reflexivity.
  - destruct (Ascii.eqb c slash); apply IH.
Qed.

Lemma basename_from_ends_with_slash (p acc : string) :
  ends_with_slash p = true -> basename_from acc p = "".
Proof.
  revert acc. induction p as [| c p IH]; intros acc H.
  - discriminate H.
  - destruct p as [| d p].
    + simpl in H. simpl. rewrite H. reflexivity.
    + change (ends_with_slash (String d p) = true) in H.
      cbn [basename_from].
      destruct (Ascii.eqb c slash); apply IH; exact H.
Qed.

Lemma has_slash_app (p q : string) :
  has_slash (p ++ q) = (has_slash p || has_slash q)%bool.
Proof.
  induction p as [| c p IH]; simpl; [reflexivity |].
  rewrite IH. apply orb_assoc.
Qed.

Lemma basename_from_no_slash (p acc : string) :
  has_slash acc = false -> has_slash (basename_from acc p) = false.
Proof.
  revert acc. induction p as [| c p IH]; intros acc H; simpl.
  - exact H.
  - destruct (Ascii.eqb c slash) eqn:E.
    + apply IH. reflexivity.
    + apply IH. rewrite has_slash_app, H. simpl. rewrite E. reflexivity.
Qed.

Lemma basename_no_slash (p : string) : has_slash (basename p) = false.
Proof. apply basename_from_no_slash. reflexivity. Qed.

Lemma append_empty (s : string) : s ++ "" = s.
Proof.
  induction s as [| a s IH]; [reflexivity |].
  change (String a (s ++ "") = String a s). rewrite IH. reflexivity.
Qed.

Lemma append_one (s t : string) (c : Ascii.ascii) :
  (s ++ String c "") ++ t = s ++ String c t.
Proof.
  induction s as [| a s IH]; [reflexivity |].
  change (String a ((s ++ String c "") ++ t) = String a (s ++ String c t)).
  rewrite IH. reflexivity.
Qed.

Lemma basename_from_of_no_slash (p acc : string) :
  has_slash p = false -> basename_from acc p = acc ++ p.
Proof.
  revert acc. induction p as [| c p IH]; intros acc H; simpl in *.
  - symmetry. apply append_empty.
  - apply orb_false_elim in H. destruct H as [Hc Hp]. rewrite Hc.
    rewrite (IH _ Hp). apply append_one.
Qed.

Lemma result_path_of (name : string) :
  has_slash name = false ->
  path_join RESULT_DIR name = "results/" ++ name.
Proof.
  intros H. destruct name as [| c name]; [reflexivity |].
  simpl in H. apply orb_false_elim in H. destruct H as [Hc _].
  unfold path_join. rewrite Hc. reflexivity.
Qed.

Lemma basename_of_upload_path (f : string) :
  basename (path_join UPLOAD_DIR f) = basename f.
Proof.
  unfold basename, path_join. destruct f as [| c f].
  - reflexivity.
  - destruct (Ascii.eqb c slash); [reflexivity |].
    change (basename_from "" ("uploads/" ++ String c f)
            = basename_from "" (String c f)).
    rewrite basename_from_app. reflexivity.
Qed.

(** X1: the last segment of [os.path.join(a, b)] is the last segment of
    [b], whatever the directory [a]: the name [detect_ball] gives to the
    result image and to the record of an upload is the last segment of
    the uploaded file name. *)
Theorem basename_path_join (a b : string) :
  basename (path_join a b) = basename b.
Proof.
  unfold basename, path_join.
  destruct b as [| c b].
  - destruct (String.eqb a "" || ends_with_slash a)%bool eqn:E.
    + apply orb_true_iff in E. destruct E as [E | E].
      * apply String.eqb_eq in E. subst a. reflexivity.
      * rewrite (basename_from_ends_with_slash a "" E). reflexivity.
    + rewrite basename_from_app. simpl. reflexivity.
  - destruct (Ascii.eqb c slash) eqn:Hc; [reflexivity |].
    destruct (String.eqb a "" || ends_with_slash a)%bool eqn:E.
    + apply orb_true_iff in E. destruct E as [E | E].
      * apply String.eqb_eq in E. subst a. reflexivity.
      * rewrite basename_from_app.
        rewrite (basename_from_ends_with_slash a "" E). reflexivity.
    + rewrite basename_from_app, basename_from_app. reflexivity.
Qed.

(** ** The detection loop over several lists *)

Lemma is_ball_false (b : box) : not_ball b -> is_ball b = false.
Proof. intros H. apply Z.eqb_neq. exact H. Qed.

Lemma scan_boxes_find (r : list box) (st : locals) :
  scan_boxes r st
  = match List.find is_ball r with
    | Some b => take_box b st
    | None => st
    end.
Proof.
  induction r as [| b r IH]; simpl; [reflexivity |].
  unfold is_ball at 1. destruct (Z.eqb (Py.int (cls b)) SPORTS_BALL).
  - reflexivity.
  - exact IH.
Qed.

Lemma take_box_image (b : box) (st : locals) :
  cur_image (take_box b st)
  = {| raster := raster (cur_image st);
       drawn := drawn (cur_image st) ++ marks b |}.
Proof.
  unfold take_box, marks. destruct (xyxy b) as [[[x1 y1] x2] y2].
  reflexivity.
Qed.

Lemma scan_boxes_image (r : list box) (st : locals) :
  cur_image (scan_boxes r st)
  = {| raster := raster (cur_image st);
       drawn := drawn (cur_image st) ++ marks_of r |}.
Proof.
  rewrite scan_boxes_find. unfold marks_of.
  destruct (List.find is_ball r) as [b |].
  - apply take_box_image.
  - rewrite app_nil_r. destruct (cur_image st). reflexivity.
Qed.

Lemma scan_results_image (results : list (list box)) (st : locals) :
  cur_image (scan_results results st)
  = {| raster := raster (cur_image st);
       drawn := drawn (cur_image st) ++ flat_map marks_of results |}.
Proof.
  unfold scan_results. revert st.
  induction results as [| r results IH]; intros st; simpl.
  - rewrite app_nil_r. destruct (cur_image st). reflexivity.
  - rewrite IH, scan_boxes_image. simpl. rewrite app_assoc. reflexivity.
Qed.

Lemma scan_results_app (before after : list (list box)) (st : locals) :
  scan_results (before ++ after) st
  = scan_results after (scan_results before st).
Proof. unfold scan_results. apply fold_left_app. Qed.

Lemma find_is_ball_none (r : list box) :
  Forall not_ball r -> List.find is_ball r = None.
Proof.
  induction 1 as [| b r Hb _ IH]; simpl; [reflexivity |].
  rewrite (is_ball_false b Hb). exact IH.
Qed.

Lemma flat_map_marks_none (results : list (list box)) :
  Forall (Forall not_ball) results -> flat_map marks_of results = [].
Proof.
  induction 1 as [| r results Hr _ IH]; simpl; [reflexivity |].
  unfold marks_of at 1. rewrite (find_is_ball_none r Hr). exact IH.
Qed.

(** ** What [detect_ball] leaves on the disk *)

(** X2: a call of [detect_ball] that reads its image and the log writes
    one file and no other: it stands directly in the result directory,
    under the last segment of the path, which holds no slash and is the
    name stored in the record; the pixels written are those read. *)
Theorem detect_writes_one_file
        (model : image -> list (list box)) (now path : string)
        (w : world) (im : image) (h : list detection_record) :
  imread path w = Some im ->
  load_history w = (Ok h, w) ->
  exists record w' im',
    detect_ball model now path w = (Ok (basename path, record), w')
    /\ has_slash (basename path) = false
    /\ image_name record = basename path
    /\ disk w' = <["results/" ++ basename path := ImageData im']> (disk w)
    /\ raster im' = raster im.
Proof.
  intros Him Hh.
  pose proof (detect_ball_run model now path w im h Him Hh) as Hrun.
  cbv zeta in Hrun.
  rewrite (result_path_of _ (basename_no_slash path)) in Hrun.
  do 3 eexists. split; [exact Hrun |].
  split; [apply basename_no_slash |].
  split; [reflexivity |]. split; [reflexivity |].
  rewrite scan_results_image. reflexivity.
Qed.

Lemma detect_writes_one_file_witness :
  exists record w' im',
    detect_ball crowded "2024-05-01 10:10:00" "uploads/match.jpg" uploaded
    = (Ok (basename "uploads/match.jpg", record), w')
    /\ has_slash (basename "uploads/match.jpg") = false
    /\ image_name record = basename "uploads/match.jpg"
    /\ disk w'
       = <["results/" ++ basename "uploads/match.jpg" := ImageData im']>
           (disk uploaded)
    /\ raster im' = raster pitch.
Proof.
  apply (detect_writes_one_file crowded "2024-05-01 10:10:00"
           "uploads/match.jpg" uploaded pitch []).
  - reflexivity.
  - reflexivity.
Defined.

(** X3: the image [detect_ball] writes is the image it read with, for
    every list of detections the model answered, the rectangle and the
    caption of the first sports ball of that list, in the order of the
    lists. *)
Theorem detect_marks_every_list
        (model : image -> list (list box)) (now path : string)
        (w : world) (im : image) (h : list detection_record) :
  imread path w = Some im ->
  load_history w = (Ok h, w) ->
  exists record w',
    detect_ball model now path w = (Ok (basename path, record), w')
    /\ disk w' !! ("results/" ++ basename path)
       = Some (ImageData
                 {| raster := raster im;
                    drawn := drawn im ++ flat_map marks_of (model im) |}).
Proof.
  intros Him Hh.
  pose proof (detect_ball_run model now path w im h Him Hh) as Hrun.
  cbv zeta in Hrun.
  rewrite (result_path_of _ (basename_no_slash path)) in Hrun.
  do 2 eexists. split; [exact Hrun |].
  cbn [disk]. rewrite lookup_insert_eq, scan_results_image. reflexivity.
Qed.

Lemma detect_marks_every_list_witness :
  exists record w',
    detect_ball two_frames "2024-05-01 10:10:00" "uploads/match.jpg" uploaded
    = (Ok (basename "uploads/match.jpg", record), w')
    /\ disk w' !! ("results/" ++ basename "uploads/match.jpg")
       = Some (ImageData
                 {| raster := raster pitch;
                    drawn := drawn pitch
                             ++ flat_map marks_of (two_frames pitch) |}).
Proof.
  apply (detect_marks_every_list two_frames "2024-05-01 10:10:00"
           "uploads/match.jpg" uploaded pitch []).
  - reflexivity.
  - reflexivity.
Defined.

Example two_frames_marks :
  flat_map marks_of (two_frames pitch)
  = [Rectangle 300 40 340 81 green 2;
     PutText (4321 # 10000) 300 30 green 2;
     Rectangle 500 10 520 30 green 2;
     PutText (97 # 100) 500 0 green 2].
Proof. reflexivity. Qed.

(** X4: when no detection is a sports ball, the image [detect_ball]
    writes to the result directory is the image it read, with nothing
    drawn on it. *)
Theorem detect_without_ball_copies_image
        (model : image -> list (list box)) (now path : string)
        (w : world) (im : image) (h : list detection_record) :
  imread path w = Some im ->
  load_history w = (Ok h, w) ->
  Forall (Forall not_ball) (model im) ->
  exists record w',
    detect_ball model now path w = (Ok (basename path, record), w')
    /\ imread ("results/" ++ basename path) w' = Some im.
Proof.
  intros Him Hh Hnone.
  pose proof (detect_ball_run model now path w im h Him Hh) as Hrun.
  cbv zeta in Hrun.
  rewrite (result_path_of _ (basename_no_slash path)) in Hrun.
  rewrite (scan_results_none _ _ Hnone) in Hrun.
  do 2 eexists. split; [exact Hrun |].
  unfold imread. cbn [disk]. rewrite lookup_insert_eq. reflexivity.
Qed.

Lemma detect_without_ball_copies_image_witness :
  exists record w',
    detect_ball empty_pitch "2024-05-01 10:10:00" "uploads/match.jpg" uploaded
    = (Ok (basename "uploads/match.jpg", record), w')
    /\ imread ("results/" ++ basename "uploads/match.jpg") w' = Some pitch.
Proof.
  apply (detect_without_ball_copies_image empty_pitch "2024-05-01 10:10:00"
           "uploads/match.jpg" uploaded pitch []).
  - reflexivity.
  - reflexivity.
  - repeat constructor. unfold not_ball. vm_compute. discriminate.
Defined.

(** X5: the [break] leaves the loop over one list only.  When the model
    answers several lists, the record describes the first sports ball of
    the last list that holds one, whatever the lists before it hold. *)
Theorem detect_keeps_last_list
        (model : image -> list (list box)) (now path : string)
        (w : world) (im : image) (h : list detection_record)
        (before after : list (list box)) (pre post : list box) (b : box) :
  imread path w = Some im ->
  load_history w = (Ok h, w) ->
  model im = (before ++ [(pre ++ b :: post)%list] ++ after)%list ->
  Forall not_ball pre ->
  Py.int (cls b) = SPORTS_BALL ->
  Forall (Forall not_ball) after ->
  exists record w',
    detect_ball model now path w = (Ok (basename path, record), w')
    /\ ball_detected record = true
    /\ bbox record = Some (box_coordinates b)
    /\ confidence record = Py.PyFloat (Py.round2 (conf b)).
Proof.
  intros Him Hh Hm Hpre Hb Hafter.
  pose proof (detect_ball_run model now path w im h Him Hh) as Hrun.
  cbv zeta in Hrun. rewrite Hm in Hrun.
  rewrite scan_results_app, scan_results_app in Hrun.
  rewrite (scan_results_none after _ Hafter) in Hrun.
  unfold scan_results at 1 in Hrun. cbn [fold_left] in Hrun.
  rewrite (scan_boxes_first pre post b _ Hpre Hb) in Hrun.
  do 2 eexists. split; [exact Hrun |].
  unfold make_record, take_box, box_coordinates.
  destruct (xyxy b) as [[[x1 y1] x2] y2]. repeat split.
Qed.

Lemma detect_keeps_last_list_witness :
  exists record w',
    detect_ball two_frames "2024-05-01 10:10:00" "uploads/match.jpg" uploaded
    = (Ok (basename "uploads/match.jpg", record), w')
    /\ ball_detected record = true
    /\ bbox record = Some (box_coordinates far_ball)
    /\ confidence record = Py.PyFloat (Py.round2 (conf far_ball)).
Proof.
  apply (detect_keeps_last_list two_frames "2024-05-01 10:10:00"
           "uploads/match.jpg" uploaded pitch []
           [[player; near_ball]; [player]] [[]] [] [near_ball] far_ball).
  - reflexivity.
  - reflexivity.
  - reflexivity.
  - constructor.
  - reflexivity.
  - repeat constructor.
Defined.

(** ** What a call leaves of the world *)

Lemma index_tail_state (result : option (string * detection_record))
      (w : world) :
  snd ((history <- load_history ;;
        stats <- get_statistics ;;
        ret {| page_result := result;
               page_history := history;
               page_stats := stats |}) w) = w.
Proof.
  unfold bind.
  pose proof (load_history_state w) as H1.
  destruct (load_history w) as [[h | e] w1]; simpl in H1; subst;
    [| reflexivity].
  pose proof (get_statistics_state w) as H2.
  destruct (get_statistics w) as [[s | e] w2]; simpl in H2; subst;
    reflexivity.
Qed.

Lemma detect_ball_disk (model : image -> list (list box))
      (now path : string) (w : world) (p : string) :
  p <> path_join RESULT_DIR (basename path) ->
  disk (snd (detect_ball model now path w)) !! p = disk w !! p.
Proof.
  intros Hp. unfold detect_ball.
  destruct (imread path w) as [im |]; [| reflexivity].
  unfold bind, imwrite, append_record, bind, load_history, json_load,
    json_dump, ret.
  cbn [history disk].
  destruct (history w); cbn; apply lookup_insert_ne; congruence.
Qed.

Lemma detect_ball_history (model : image -> list (list box))
      (now path : string) (w : world) :
  history (snd (detect_ball model now path w)) = history w
  \/ exists h record,
      load_history w = (Ok h, w)
      /\ history (snd (detect_ball model now path w))
         = Document (h ++ [record]).
Proof.
  destruct (detect_ball model now path w) as [[[name record] | e] w'] eqn:E.
  - right. destruct (detect_ball_inv _ _ _ _ _ _ E) as (im & h & Him & Hh).
    pose proof (detect_ball_run model now path w im h Him Hh) as Hrun.
    cbv zeta in Hrun. rewrite Hrun in E. inversion E; subst.
    exists h. eexists. split; [exact Hh | reflexivity].
  - left. revert E. unfold detect_ball.
    destruct (imread path w) as [im |];
      [| intros E; inversion E; reflexivity].
    unfold bind, imwrite, append_record, bind, load_history, json_load,
      json_dump, ret.
    cbn [history disk].
    destruct (history w); cbn; intros E; inversion E; reflexivity.
Qed.

Lemma upload_path_not_result (f name : string) :
  f <> "" -> has_slash name = false ->
  path_join UPLOAD_DIR f <> path_join RESULT_DIR name.
Proof.
  intros Hf Hn. rewrite (result_path_of name Hn).
  destruct f as [| c f]; [contradiction |].
  unfold path_join. destruct (Ascii.eqb_spec c slash) as [-> | _].
  - discriminate.
  - discriminate.
Qed.

(** ** The index route with a file *)

Lemma plain_name_inv (n : string) :
  plain_name n = true -> has_slash n = false /\ n <> "".
Proof.
  unfold plain_name. intros H.
  repeat (apply andb_true_iff in H; destruct H as [H ?]).
  split.
  - apply negb_true_iff. assumption.
  - intros ->. discriminate.
Qed.

Lemma upload_path_of (n : string) :
  plain_name n = true -> path_join UPLOAD_DIR n = "uploads/" ++ n.
Proof.
  intros H. destruct (plain_name_inv n H) as [Hs Hn].
  destruct n as [| c n]; [contradiction |].
  simpl in Hs. apply orb_false_elim in Hs. destruct Hs as [Hc _].
  unfold path_join. rewrite Hc. reflexivity.
Qed.

Lemma basename_of_plain_name (n : string) :
  plain_name n = true -> basename n = n.
Proof.
  intros H. destruct (plain_name_inv n H) as [Hs _].
  unfold basename. rewrite (basename_from_of_no_slash n "" Hs). reflexivity.
Qed.

Lemma index_post_image_run (model : image -> list (list box)) (now : string)
      (req : request) (w : world) (file : file_storage)
      (im : image) (h : list detection_record) :
  method req = POST ->
  files req !! "image" = Some file ->
  plain_name (filename file) = true ->
  content file = ImageData im ->
  load_history w = (Ok h, w) ->
  let st := scan_results (model im) (initial_locals im) in
  let record := make_record now (filename file) st in
  index model now req w
  = (Ok {| page_result := Some (filename file, record);
           page_history := (h ++ [record])%list;
           page_stats := statistics_of (h ++ [record])%list |},
     {| history := Document (h ++ [record])%list;
        disk := <["results/" ++ filename file := ImageData (cur_image st)]>
                  (<["uploads/" ++ filename file := ImageData im]>
                     (disk w)) |}).
Proof.
  intros Hm Hf Hp Hc Hh st record.
  destruct (plain_name_inv _ Hp) as [Hs Hn].
  rewrite (index_post_file model now req w file Hm Hf Hn). cbv zeta.
  rewrite (upload_path_of _ Hp), Hc.
  set (path := "uploads/" ++ filename file).
  set (w1 := {| history := history w;
                disk := <[path := ImageData im]> (disk w) |}).
  assert (Him : imread path w1 = Some im).
  { unfold imread, w1. cbn [disk]. rewrite lookup_insert_eq. reflexivity. }
  pose proof (detect_ball_run model now path w1 im h Him
                (load_history_frame w h _ Hh)) as Hrun.
  cbv zeta in Hrun.
  assert (Hb : basename path = filename file).
  { unfold path. rewrite <- (upload_path_of _ Hp), basename_of_upload_path.
    apply basename_of_plain_name. exact Hp. }
  rewrite Hb, (result_path_of _ Hs) in Hrun.
  unfold bind at 1. rewrite Hrun.
  apply index_tail. reflexivity.
Qed.

(** X6: after a POST whose file has a plain name, the uploaded content
    stands in the upload directory under that name, also when the
    detection that follows fails.  (The save is taken to succeed: the
    upload directory is there, as the program made it when it started,
    and can be written.) *)
Theorem upload_is_stored
        (model : image -> list (list box)) (now : string)
        (req : request) (w : world) (file : file_storage) :
  method req = POST ->
  files req !! "image" = Some file ->
  plain_name (filename file) = true ->
  disk (snd (index model now req w)) !! ("uploads/" ++ filename file)
  = Some (content file).
Proof.
  intros Hm Hf Hp. destruct (plain_name_inv _ Hp) as [Hs Hn].
  rewrite (index_post_file model now req w file Hm Hf Hn). cbv zeta.
  rewrite (upload_path_of _ Hp).
  set (path := "uploads/" ++ filename file).
  set (w1 := {| history := history w;
                disk := <[path := content file]> (disk w) |}).
  assert (Hd : disk (snd (detect_ball model now path w1)) !! path
               = Some (content file)).
  { rewrite detect_ball_disk.
    - unfold w1. cbn [disk]. apply lookup_insert_eq.
    - unfold path. rewrite <- (upload_path_of _ Hp).
      apply upload_path_not_result; [exact Hn | apply basename_no_slash]. }
  unfold bind at 1.
  destruct (detect_ball model now path w1) as [[r | e] w2];
    cbn [snd] in Hd; [| exact Hd].
  rewrite index_tail_state. exact Hd.
Qed.

Lemma upload_is_stored_witness :
  disk (snd (index crowded "2024-05-01 10:10:00" notes_upload logged))
    !! ("uploads/" ++ "notes.txt")
  = Some OtherData.
Proof.
  apply (upload_is_stored crowded "2024-05-01 10:10:00" notes_upload logged
           {| filename := "notes.txt"; content := OtherData |}).
  - reflexivity.
  - reflexivity.
  - reflexivity.
Defined.

(** X7: a POST whose file has a plain name and is not a readable image
    is stored in the upload directory, after which the request fails: no
    result image is written and no record is added to the log. *)
Theorem post_with_unreadable_file
        (model : image -> list (list box)) (now : string)
        (req : request) (w : world) (file : file_storage) :
  method req = POST ->
  files req !! "image" = Some file ->
  plain_name (filename file) = true ->
  content file = OtherData ->
  index model now req w
  = (Raised CvError,
     {| history := history w;
        disk := <["uploads/" ++ filename file := OtherData]> (disk w) |}).
Proof.
  intros Hm Hf Hp Hc. destruct (plain_name_inv _ Hp) as [Hs Hn].
  rewrite (index_post_file model now req w file Hm Hf Hn). cbv zeta.
  rewrite (upload_path_of _ Hp), Hc. unfold bind at 1.
  rewrite detect_ball_unreadable; [reflexivity |].
  unfold imread. cbn [disk]. rewrite lookup_insert_eq. reflexivity.
Qed.

Lemma post_with_unreadable_file_witness :
  index crowded "2024-05-01 10:10:00" notes_upload logged
  = (Raised CvError,
     {| history := history logged;
        disk := <["uploads/" ++ "notes.txt" := OtherData]> (disk logged) |}).
Proof.
  apply (post_with_unreadable_file crowded "2024-05-01 10:10:00"
           notes_upload logged
           {| filename := "notes.txt"; content := OtherData |}).
  - reflexivity.
  - reflexivity.
  - reflexivity.
  - reflexivity.
Defined.





(** ** Calls one after the other *)

Lemma load_history_same (w w' : world) (h : list detection_record) :
  history w' = history w ->
  load_history w = (Ok h, w) -> load_history w' = (Ok h, w').
Proof.
  unfold load_history, json_load. intros ->.
  destruct (history w); simpl; intros H; inversion H; reflexivity.
Qed.

(** X10: the result image is named by the file name alone.  Two POSTs
    that upload images under the same plain file name leave two records
    of that image name in the log, and one upload and one result image,
    those of the second POST. *)
Theorem same_name_overwrites_result
        (model : image -> list (list box)) (now1 now2 : string)
        (req1 req2 : request) (w : world) (file1 file2 : file_storage)
        (im1 im2 : image) (h : list detection_record) :
  method req1 = POST ->
  method req2 = POST ->
  files req1 !! "image" = Some file1 ->
  files req2 !! "image" = Some file2 ->
  plain_name (filename file1) = true ->
  filename file2 = filename file1 ->
  content file1 = ImageData im1 ->
  content file2 = ImageData im2 ->
  load_history w = (Ok h, w) ->
  exists r1 r2 p1 p2 w1 w2,
    index model now1 req1 w = (Ok p1, w1)
    /\ index model now2 req2 w1 = (Ok p2, w2)
    /\ page_history p2 = (h ++ [r1; r2])%list
    /\ image_name r1 = filename file1
    /\ image_name r2 = filename file1
    /\ disk w2 !! ("uploads/" ++ filename file1) = Some (ImageData im2)
    /\ disk w2 !! ("results/" ++ filename file1)
       = Some (ImageData
                 {| raster := raster im2;
                    drawn := drawn im2 ++ flat_map marks_of (model im2) |}).
Proof.
  intros Hm1 Hm2 Hf1 Hf2 Hp Hn Hc1 Hc2 Hh.
  pose proof (index_post_image_run model now1 req1 w file1 im1 h
                Hm1 Hf1 Hp Hc1 Hh) as Hrun1.
  cbv zeta in Hrun1.
  match type of Hrun1 with _ = (Ok _, ?x) => set (w1 := x) in * end.
  assert (Hp2 : plain_name (filename file2) = true) by (rewrite Hn; exact Hp).
  pose proof (index_post_image_run model now2 req2 w1 file2 im2 _
                Hm2 Hf2 Hp2 Hc2 eq_refl) as Hrun2.
  cbv zeta in Hrun2. rewrite Hn in Hrun2.
  destruct (plain_name_inv _ Hp) as [Hs Hne].
  do 6 eexists. split; [exact Hrun1 |]. split; [exact Hrun2 |].
  cbn [page_history history disk image_name make_record].
  split; [rewrite <- app_assoc; reflexivity |].
  split; [reflexivity |]. split; [reflexivity |]. split.
  - rewrite lookup_insert_ne, lookup_insert_eq; [reflexivity |].
    rewrite <- (result_path_of _ Hs), <- (upload_path_of _ Hp).
    intros E. symmetry in E. revert E.
    apply upload_path_not_result; assumption.
  - rewrite lookup_insert_eq, scan_results_image. reflexivity.
Qed.

Lemma same_name_overwrites_result_witness :
  exists r1 r2 p1 p2 w1 w2,
    index two_frames "2024-05-01 10:10:00" match_upload logged = (Ok p1, w1)
    /\ index two_frames "2024-05-01 10:20:00" rematch_upload w1 = (Ok p2, w2)
    /\ page_history p2 = ([earlier_record; later_record] ++ [r1; r2])%list
    /\ image_name r1 = "match.jpg"
    /\ image_name r2 = "match.jpg"
    /\ disk w2 !! ("uploads/" ++ "match.jpg") = Some (ImageData night_pitch)
    /\ disk w2 !! ("results/" ++ "match.jpg")
       = Some (ImageData
                 {| raster := raster night_pitch;
                    drawn := drawn night_pitch
                             ++ flat_map marks_of (two_frames night_pitch) |}).
Proof.
  apply (same_name_overwrites_result two_frames "2024-05-01 10:10:00"
           "2024-05-01 10:20:00" match_upload rematch_upload logged
           {| filename := "match.jpg"; content := ImageData pitch |}
           {| filename := "match.jpg"; content := ImageData night_pitch |}
           pitch night_pitch [earlier_record; later_record]).
  all: reflexivity.
Defined.

Lemma count_found_snoc (h : list detection_record) (r : detection_record) :
  count_found (h ++ [r]) = count_found h + (if ball_detected r then 1 else 0).
Proof.
  unfold count_found. rewrite fold_left_app. simpl.
  destruct (ball_detected r); lia.
Qed.

(** X11: a detection moves the statistics by one image: the total grows
    by one, found grows by one when the record found a ball and not_found
    grows by one when it did not. *)
Theorem statistics_after_detect
        (model : image -> list (list box)) (now path : string)
        (w : world) (im : image) (h : list detection_record) :
  imread path w = Some im ->
  load_history w = (Ok h, w) ->
  exists record w' s s',
    get_statistics w = (Ok s, w)
    /\ detect_ball model now path w = (Ok (basename path, record), w')
    /\ get_statistics w' = (Ok s', w')
    /\ total_images s' = total_images s + 1
    /\ found s' = found s + (if ball_detected record then 1 else 0)
    /\ not_found s' = not_found s + (if ball_detected record then 0 else 1).
Proof.
  intros Him Hh.
  pose proof (detect_ball_run model now path w im h Him Hh) as Hrun.
  cbv zeta in Hrun.
  do 4 eexists. split; [apply get_statistics_run; exact Hh |].
  split; [exact Hrun |].
  split; [apply get_statistics_run; reflexivity |].
  cbn [total_images found not_found statistics_of].
  rewrite count_found_snoc, length_app. cbn [length].
  match goal with |- context [ball_detected ?r] =>
    destruct (ball_detected r) end; repeat split; lia.
Qed.

Lemma statistics_after_detect_witness :
  exists record w' s s',
    get_statistics second_upload = (Ok s, second_upload)
    /\ detect_ball crowded "2024-05-01 10:10:00" "uploads/match.jpg"
         second_upload
       = (Ok (basename "uploads/match.jpg", record), w')
    /\ get_statistics w' = (Ok s', w')
    /\ total_images s' = total_images s + 1
    /\ found s' = found s + (if ball_detected record then 1 else 0)
    /\ not_found s' = not_found s + (if ball_detected record then 0 else 1).
Proof.
  apply (statistics_after_detect crowded "2024-05-01 10:10:00"
           "uploads/match.jpg" second_upload
           pitch [earlier_record; later_record]).
  - reflexivity.
  - reflexivity.
Defined.

(** ** The log over the life of the program *)

Lemma index_post_file_state (model : image -> list (list box))
      (now : string) (req : request) (w : world) (file : file_storage) :
  method req = POST ->
  files req !! "image" = Some file ->
  filename file <> "" ->
  snd (index model now req w)
  = snd (detect_ball model now (path_join UPLOAD_DIR (filename file))
           {| history := history w;
              disk := <[path_join UPLOAD_DIR (filename file)
                        := content file]> (disk w) |}).
Proof.
  intros Hm Hf Hn.
  rewrite (index_post_file model now req w file Hm Hf Hn).
  cbv zeta. unfold bind at 1.
  match goal with
  | |- context [detect_ball model now ?p ?w1] =>
      destruct (detect_ball model now p w1) as [[r | e] w2]
  end; cbn [snd]; [apply index_tail_state | reflexivity].
Qed.

Lemma index_history (model : image -> list (list box)) (now : string)
      (req : request) (w : world) :
  history (snd (index model now req w)) = history w
  \/ exists h record,
      load_history w = (Ok h, w)
      /\ history (snd (index model now req w)) = Document (h ++ [record]).
Proof.
  destruct (method req) eqn:Hm.
  - left. unfold index. rewrite Hm. unfold bind at 1. unfold ret at 1.
    cbv beta iota. rewrite index_tail_state. reflexivity.
  - destruct (files req !! "image") as [file |] eqn:Hf.
    + destruct (String.eqb_spec (filename file) "") as [Hn | Hn].
      * left. unfold index, get_file. rewrite Hm, Hf.
        unfold bind at 1. unfold bind at 1. unfold ret at 1.
        unfold file_truthy. rewrite Hn.
        change (negb (String.eqb "" "")) with false. cbv iota.
        unfold ret at 1. cbv beta iota.
        rewrite index_tail_state. reflexivity.
      * rewrite (index_post_file_state model now req w file Hm Hf Hn).
        match goal with
        | |- context [detect_ball model now ?p ?w1] =>
            destruct (detect_ball_history model now p w1)
              as [Hd | (h & record & Hh & Hd)]
        end.
        -- left. exact Hd.
        -- right. exists h, record. split; [| exact Hd].
           apply (load_history_same _ w h) in Hh; [exact Hh | reflexivity].
    + left. rewrite (index_post_missing model now req w Hm Hf). reflexivity.
Qed.

(** X12: the log is append-only as long as uploads have plain file
    names.  Whatever is served next, a detection, the index page with
    such an upload or with none, the statistics or a report, a log that
    reads is afterwards the same log followed by at most one record:
    nothing is removed, changed or reordered. *)
Theorem log_is_append_only (w w' : world) (h : list detection_record) :
  step w w' ->
  load_history w = (Ok h, w) ->
  exists t,
    load_history w' = (Ok (h ++ t)%list, w') /\ (length t <= 1)%nat.
Proof.
  intros Hs Hh.
  assert (Hcase : history w' = history w
                  \/ exists h0 record,
                      load_history w = (Ok h0, w)
                      /\ history w' = Document (h0 ++ [record])).
  { destruct Hs.
    - apply detect_ball_history.
    - apply index_history.
    - left. rewrite get_statistics_state. reflexivity.
    - left. rewrite download_pdf_state. reflexivity.
    - left. rewrite download_excel_state. reflexivity. }
  destruct Hcase as [Hsame | (h0 & record & Hh0 & Hd)].
  - exists []. rewrite app_nil_r. split; [| simpl; lia].
    apply (load_history_same w w' h Hsame Hh).
  - exists [record]. split; [| simpl; lia].
    rewrite Hh in Hh0. inversion Hh0; subst.
    unfold load_history, json_load. rewrite Hd. reflexivity.
Qed.

Lemma log_is_append_only_witness :
  exists t,
    load_history
      (snd (index crowded "2024-05-01 10:10:00" match_upload logged))
    = (Ok ([earlier_record; later_record] ++ t)%list,
       snd (index crowded "2024-05-01 10:10:00" match_upload logged))
    /\ (length t <= 1)%nat.
Proof.
  apply (log_is_append_only logged).
  - apply step_index. reflexivity.
  - reflexivity.
Defined.

(** X13: the reading operations change nothing.  [get_statistics] and a
    GET of the index page leave the log and the files as they are, and
    the two report routes leave the log as it is, also when they fail. *)
Theorem reading_changes_nothing
        (model : image -> list (list box)) (now : string)
        (req : request) (w : world) :
  snd (get_statistics w) = w
  /\ (method req = GET -> snd (index model now req w) = w)
  /\ history (snd (download_pdf w)) = history w
  /\ history (snd (download_excel w)) = history w.
Proof.
  split; [apply get_statistics_state |]. split.
  - intros Hm. unfold index. rewrite Hm. unfold bind at 1. unfold ret at 1.
    cbv beta iota. apply index_tail_state.
  - rewrite download_pdf_state, download_excel_state. split; reflexivity.
Qed.

Lemma reading_changes_nothing_witness :
  snd (get_statistics corrupt) = corrupt
  /\ (method {| method := GET; files := ∅ |} = GET ->
      snd (index crowded "2024-05-01 10:10:00"
             {| method := GET; files := ∅ |} corrupt) = corrupt)
  /\ history (snd (download_pdf corrupt)) = history corrupt
  /\ history (snd (download_excel corrupt)) = history corrupt.
Proof.
  apply (reading_changes_nothing crowded "2024-05-01 10:10:00"
           {| method := GET; files := ∅ |} corrupt).
Defined.

(** ** The average confidence *)







(** ** The reports *)

Lemma found_line_pdf_line (r : detection_record) :
  found_line (pdf_line r) = ball_detected r.
Proof. unfold found_line, pdf_line. destruct (ball_detected r); reflexivity. Qed.

Lemma found_lines_count (h : list detection_record) :
  length (List.filter found_line (map pdf_line h)) = records_found h.
Proof.
  unfold records_found. induction h as [| r h IH]; simpl; [reflexivity |].
  rewrite found_line_pdf_line. destruct (ball_detected r); simpl; rewrite IH;
    reflexivity.
Qed.

(** X17: the body of each report is the log, record by record and in
    order.  The PDF has one line for each record, with its date, its
    image name and its confidence times 100, as many lines as the summary
    counts images, and as many lines saying the ball was found as the
    summary counts found; the spreadsheet has the records as its rows. *)
Theorem reports_list_the_log (w : world) (h : list detection_record) :
  load_history w = (Ok h, w) ->
  exists p x,
    download_pdf w = (Ok p, w)
    /\ download_excel w = (Ok x, w)
    /\ map entry_date (pdf_entries p) = map date h
    /\ map entry_image (pdf_entries p) = map image_name h
    /\ map entry_percent (pdf_entries p)
       = map (fun r => Py.mul (confidence r) (Py.PyInt 100)) h
    /\ Z.of_nat (length (pdf_entries p)) = sum_total_images (pdf_summary p)
    /\ Z.of_nat (length (List.filter found_line (pdf_entries p)))
       = sum_found (pdf_summary p)
    /\ excel_rows x = h.
Proof.
  intros Hh. do 2 eexists.
  split; [apply download_pdf_run; exact Hh |].
  split; [apply download_excel_run; exact Hh |].
  cbn [pdf_entries pdf_summary sum_total_images sum_found excel_rows].
  rewrite !map_map, length_map, found_lines_count, count_found_spec.
  repeat split; reflexivity.
Qed.

Lemma reports_list_the_log_witness :
  exists p x,
    download_pdf logged = (Ok p, logged)
    /\ download_excel logged = (Ok x, logged)
    /\ map entry_date (pdf_entries p) = map date [earlier_record; later_record]
    /\ map entry_image (pdf_entries p)
       = map image_name [earlier_record; later_record]
    /\ map entry_percent (pdf_entries p)
       = map (fun r => Py.mul (confidence r) (Py.PyInt 100))
           [earlier_record; later_record]
    /\ Z.of_nat (length (pdf_entries p)) = sum_total_images (pdf_summary p)
    /\ Z.of_nat (length (List.filter found_line (pdf_entries p)))
       = sum_found (pdf_summary p)
    /\ excel_rows x = [earlier_record; later_record].
Proof.
  apply (reports_list_the_log logged [earlier_record; later_record]).
  reflexivity.
Defined.

(** ** The result images route *)

Lemma append_cancel (p a b : string) : p ++ a = p ++ b -> a = b.
Proof.
  induction p as [| c p IH]; intros E; [exact E |].
  apply IH. change (String c (p ++ a) = String c (p ++ b)) in E.
  congruence.
Qed.

Lemma result_paths_differ (a b : string) :
  a <> b -> "results/" ++ a <> "results/" ++ b.
Proof. intros H E. apply H. exact (append_cancel _ _ _ E). Qed.

(** X18: the image a detection wrote is the one the result route sends
    under the name the detection returned and stored in the record. *)
Theorem result_image_is_served
        (model : image -> list (list box)) (now path : string)
        (w : world) (im : image) (h : list detection_record) :
  imread path w = Some im ->
  load_history w = (Ok h, w) ->
  basename path <> "" ->
  basename path <> ".." ->
  exists record w',
    detect_ball model now path w = (Ok (basename path, record), w')
    /\ image_name record = basename path
    /\ has_slash (basename path) = false
    /\ show_result_image (basename path) w'
       = Sent (ImageData
                 {| raster := raster im;
                    drawn := drawn im ++ flat_map marks_of (model im) |}).
Proof.
  intros Him Hh Hne Hdots.
  pose proof (detect_ball_run model now path w im h Him Hh) as Hrun.
  cbv zeta in Hrun.
  do 2 eexists. split; [exact Hrun |].
  split; [reflexivity |]. split; [apply basename_no_slash |].
  unfold show_result_image, send_from_directory.
  destruct (String.eqb_spec (basename path) "..") as [E | _];
    [contradiction |].
  cbn [disk]. rewrite lookup_insert_eq, scan_results_image. reflexivity.
Qed.

Lemma result_image_is_served_witness :
  exists record w',
    detect_ball crowded "2024-05-01 10:10:00" "uploads/match.jpg" uploaded
    = (Ok (basename "uploads/match.jpg", record), w')
    /\ image_name record = basename "uploads/match.jpg"
    /\ has_slash (basename "uploads/match.jpg") = false
    /\ show_result_image (basename "uploads/match.jpg") w'
       = Sent (ImageData
                 {| raster := raster pitch;
                    drawn := drawn pitch
                             ++ flat_map marks_of (crowded pitch) |}).
Proof.
  apply (result_image_is_served crowded "2024-05-01 10:10:00"
           "uploads/match.jpg" uploaded pitch []).
  - reflexivity.
  - reflexivity.
  - discriminate.
  - discriminate.
Defined.

(** X19: the result route sends files of the result directory only, and
    a detection adds one name to those it sends: any other name of one
    segment that had no file there is still answered by 404 afterwards,
    whether the detection succeeded or failed. *)
Theorem other_names_are_not_found
        (model : image -> list (list box)) (now path name : string)
        (w : world) :
  has_slash name = false ->
  name <> basename path ->
  disk w !! ("results/" ++ name) = None ->
  show_result_image name w = NotFound
  /\ show_result_image name (snd (detect_ball model now path w)) = NotFound.
Proof.
  intros Hs Hne Hnone.
  unfold show_result_image, send_from_directory.
  destruct (String.eqb name ".."); [split; reflexivity |].
  rewrite (result_path_of name Hs), Hnone. split; [reflexivity |].
  rewrite detect_ball_disk, Hnone; [reflexivity |].
  rewrite (result_path_of _ (basename_no_slash path)).
  apply result_paths_differ. exact Hne.
Qed.

Lemma other_names_are_not_found_witness :
  show_result_image "history.json" uploaded = NotFound
  /\ show_result_image "history.json"
       (snd (detect_ball crowded "2024-05-01 10:10:00" "uploads/match.jpg"
               uploaded)) = NotFound.
Proof.
  apply (other_names_are_not_found crowded "2024-05-01 10:10:00"
           "uploads/match.jpg" "history.json" uploaded).
  - reflexivity.
  - discriminate.
  - reflexivity.
Defined.

(** ** A detection that fails half way *)

(** X20: [detect_ball] writes the result image before it reads the log.
    On a history file that does not decode, the call fails with the
    decoder's error after the result image is written: the image stays in
    the result directory with no record of it, and the history file is
    left as it was. *)
Theorem detect_on_corrupt_history_leaves_image
        (model : image -> list (list box)) (now path : string)
        (w : world) (im : image) :
  imread path w = Some im ->
  history w = Malformed ->
  detect_ball model now path w
  = (Raised JSONDecodeError,
     {| history := Malformed;
        disk := <["results/" ++ basename path
                  := ImageData
                       {| raster := raster im;
                          drawn := drawn im
                                   ++ flat_map marks_of (model im) |}]>
                  (disk w) |}).
Proof.
  intros Him Hm. unfold detect_ball. rewrite Him.
  unfold bind at 1. unfold imwrite. unfold append_record, bind.
  rewrite (result_path_of _ (basename_no_slash path)).
  rewrite load_history_Malformed by (cbn [history]; exact Hm).
  rewrite scan_results_image, Hm. reflexivity.
Qed.

Lemma detect_on_corrupt_history_leaves_image_witness :
  detect_ball crowded "2024-05-01 10:10:00" "uploads/match.jpg"
    {| history := Malformed; disk := disk uploaded |}
  = (Raised JSONDecodeError,
     {| history := Malformed;
        disk := <["results/" ++ basename "uploads/match.jpg"
                  := ImageData
                       {| raster := raster pitch;
                          drawn := drawn pitch
                                   ++ flat_map marks_of (crowded pitch) |}]>
                  (disk {| history := Malformed; disk := disk uploaded |}) |}).
Proof.
  apply (detect_on_corrupt_history_leaves_image crowded
           "2024-05-01 10:10:00" "uploads/match.jpg"
           {| history := Malformed; disk := disk uploaded |} pitch).
  - reflexivity.
  - reflexivity.
Defined.

(** * The statistics in binary64 *)

(** ** Powers of two and the nearest double *)

Lemma two_neq_0 : ~ (2 == 0)%Q.
Proof. discriminate. Qed.

Lemma pow2_pos (e : Z) : (0 < 2 ^ e)%Q.
Proof. apply Qpower_0_lt. reflexivity. Qed.

Lemma pow2_of_Z (n : Z) : 0 <= n -> (2 ^ n == inject_Z (2 ^ n))%Q.
Proof.
  intros H. rewrite (Zpower_Qpower 2 n H). reflexivity.
Qed.

Lemma frac_le (a b c d : Q) :
  (0 < b)%Q -> (0 < d)%Q -> (a * d <= c * b)%Q -> (a / b <= c / d)%Q.
Proof.
  intros Hb Hd H. apply Qle_shift_div_l; [exact Hd |].
  assert (E : (a / b * d == a * d / b)%Q) by (field; lra).
  rewrite E. apply Qle_shift_div_r; [exact Hb |]. exact H.
Qed.

Lemma frac_lt (a b c d : Q) :
  (0 < b)%Q -> (0 < d)%Q -> (a * d < c * b)%Q -> (a / b < c / d)%Q.
Proof.
  intros Hb Hd H. apply Qlt_shift_div_l; [exact Hd |].
  assert (E : (a / b * d == a * d / b)%Q) by (field; lra).
  rewrite E. apply Qlt_shift_div_r; [exact Hb |]. exact H.
Qed.

Lemma Qabs_as_fraction (q : Q) :
  (Qabs q == inject_Z (Z.abs (Qnum q)) / inject_Z (Z.pos (Qden q)))%Q.
Proof.
  destruct q as [a b]. unfold Qabs. cbn [Qnum Qden].
  apply Qmake_Qdiv.
Qed.

Lemma log2_bounds (n : Z) :
  0 < n ->
  (inject_Z (2 ^ Z.log2 n) <= inject_Z n
   /\ inject_Z n < 2 * inject_Z (2 ^ Z.log2 n))%Q.
Proof.
  intros Hn. destruct (Z.log2_spec n Hn) as [Hlo Hhi].
  rewrite Z.pow_succ_r in Hhi by apply Z.log2_nonneg.
  split.
  - rewrite <- Zle_Qle. exact Hlo.
  - change 2%Q with (inject_Z 2). rewrite <- inject_Z_mult, <- Zlt_Qlt.
    exact Hhi.
Qed.

(** [ilog2 q] is the binary exponent of [q]. *)
Lemma ilog2_spec (q : Q) :
  ~ (q == 0)%Q ->
  (2 ^ Binary64.ilog2 q <= Qabs q /\ Qabs q < 2 ^ (Binary64.ilog2 q + 1))%Q.
Proof.
  intros Hq.
  assert (Ha : 0 < Z.abs (Qnum q)).
  { destruct q as [a b]. unfold Qeq in Hq. cbn in Hq. cbn [Qnum]. lia. }
  assert (Hb : 0 < Z.pos (Qden q)) by reflexivity.
  destruct (log2_bounds _ Ha) as [Ha1 Ha2].
  destruct (log2_bounds _ Hb) as [Hb1 Hb2].
  pose proof (pow2_of_Z _ (Z.log2_nonneg (Z.abs (Qnum q)))) as Ea.
  pose proof (pow2_of_Z _ (Z.log2_nonneg (Z.pos (Qden q)))) as Eb.
  pose proof (pow2_pos (Z.log2 (Z.abs (Qnum q)))) as Pa.
  pose proof (pow2_pos (Z.log2 (Z.pos (Qden q)))) as Pb.
  rewrite <- Ea in Ha1, Ha2. rewrite <- Eb in Hb1, Hb2.
  assert (Hqa : (0 < inject_Z (Z.abs (Qnum q)))%Q).
  { change 0%Q with (inject_Z 0). rewrite <- Zlt_Qlt. exact Ha. }
  assert (Hqb : (0 < inject_Z (Z.pos (Qden q)))%Q) by reflexivity.
  unfold Binary64.ilog2.
  set (la := Z.log2 (Z.abs (Qnum q))) in *.
  set (lb := Z.log2 (Z.pos (Qden q))) in *.
  assert (El : (2 ^ (la - lb) == 2 ^ la / 2 ^ lb)%Q)
    by (apply Qpower_minus, two_neq_0).
  destruct (Qle_bool (2 ^ (la - lb)) (Qabs q)) eqn:Hc.
  - apply Qle_bool_iff in Hc. split; [exact Hc |].
    assert (E1 : (2 ^ (la - lb + 1) == 2 * 2 ^ la / 2 ^ lb)%Q).
    { rewrite Qpower_plus by apply two_neq_0. rewrite El.
      change (2 ^ 1)%Q with 2%Q. field. lra. }
    rewrite E1, Qabs_as_fraction.
    apply frac_lt; [exact Hqb | exact Pb |].
    generalize dependent (inject_Z (Z.abs (Qnum q))).
    generalize dependent (inject_Z (Z.pos (Qden q))).
    generalize dependent (2 ^ la)%Q. generalize dependent (2 ^ lb)%Q.
    intros. nra.
  - assert (Hlt : (Qabs q < 2 ^ (la - lb))%Q).
    { apply Qnot_le_lt. intros H. apply Qle_bool_iff in H. congruence. }
    split.
    + assert (E1 : (2 ^ (la - lb - 1) == 2 ^ la / (2 * 2 ^ lb))%Q).
      { rewrite Qpower_minus by apply two_neq_0. rewrite El.
        change (2 ^ 1)%Q with 2%Q. field. lra. }
      rewrite E1, Qabs_as_fraction.
      apply frac_le; [lra | exact Hqb |].
      generalize dependent (inject_Z (Z.abs (Qnum q))).
      generalize dependent (inject_Z (Z.pos (Qden q))).
      generalize dependent (2 ^ la)%Q. generalize dependent (2 ^ lb)%Q.
      intros. nra.
    + replace (la - lb - 1 + 1) with (la - lb) by lia. exact Hlt.
Qed.

Lemma ilog2_below (q : Q) (m : Z) :
  ~ (q == 0)%Q -> (Qabs q < 2 ^ m)%Q -> Binary64.ilog2 q < m.
Proof.
  intros Hq Hm. destruct (ilog2_spec q Hq) as [Hlo _].
  apply (Qpower_lt_compat_l_inv 2); [| reflexivity].
  apply (Qle_lt_trans _ (Qabs q)); assumption.
Qed.

Lemma rnd_scaled (q : Q) :
  ~ (q == 0)%Q ->
  (Binary64.rnd q
   == inject_Z (Py.round_half_even (q / 2 ^ Binary64.ulp_exponent q))
      * 2 ^ Binary64.ulp_exponent q)%Q.
Proof.
  intros Hq. unfold Binary64.rnd.
  destruct (Qeq_bool q 0) eqn:E.
  - apply Qeq_bool_iff in E. contradiction.
  - apply Qred_correct.
Qed.

Lemma rnd_0 (q : Q) : (q == 0)%Q -> Binary64.rnd q = 0%Q.
Proof.
  intros Hq. unfold Binary64.rnd.
  destruct (Qeq_bool q 0) eqn:E; [reflexivity |].
  apply Qeq_bool_neq in E. contradiction.
Qed.

(** The nearest double of a number below [2^m] in magnitude is within
    [2^(m-54)] of it: half a unit of the last of 53 bits. *)
Lemma rnd_error (q : Q) (m : Z) :
  (Qabs q < 2 ^ m)%Q -> -1021 <= m ->
  (Qabs (Binary64.rnd q - q) <= 2 ^ (m - 54))%Q.
Proof.
  intros Hm Hrange.
  destruct (Qeq_dec q 0) as [Hq | Hq].
  - rewrite (rnd_0 q Hq), Hq. apply Qlt_le_weak.
    change (Qabs (0 - 0)) with 0%Q. apply pow2_pos.
  - pose proof (ilog2_below q m Hq Hm) as Hl.
    rewrite (rnd_scaled q Hq).
    set (e := Binary64.ulp_exponent q).
    assert (He : e <= m - 53) by (unfold e, Binary64.ulp_exponent; lia).
    pose proof (pow2_pos e) as Pe.
    pose proof (round_half_even_close (q / 2 ^ e)) as Hr.
    apply Qabs_Qle_condition in Hr. destruct Hr as [Hr1 Hr2].
    assert (Hp : (2 ^ (e - 1) <= 2 ^ (m - 54))%Q).
    { apply Qpower_le_compat_l; [lia | discriminate]. }
    assert (Eh : (2 ^ (e - 1) == 2 ^ e * (1 # 2))%Q).
    { rewrite Qpower_minus by apply two_neq_0. reflexivity. }
    rewrite Eh in Hp.
    apply Qabs_Qle_condition.
    set (y := (q / 2 ^ e)%Q) in *.
    assert (Ey : (q == y * 2 ^ e)%Q) by (unfold y; field; lra).
    clearbody y. rewrite Ey.
    generalize dependent (inject_Z (Py.round_half_even y)).
    generalize dependent (2 ^ (m - 54))%Q.
    generalize dependent (2 ^ e)%Q.
    intros t Pt _ _ b Hb r Hr1 Hr2.
    assert (H1 : ((r - y) * t <= (1 # 2) * t)%Q).
    { apply Qmult_le_compat_r; [exact Hr2 | apply Qlt_le_weak; exact Pt]. }
    assert (H2 : (- (1 # 2) * t <= (r - y) * t)%Q).
    { apply Qmult_le_compat_r; [exact Hr1 | apply Qlt_le_weak; exact Pt]. }
    assert (E : (r * t - y * t == (r - y) * t)%Q) by ring.
    rewrite E. generalize dependent ((r - y) * t)%Q. intros d H1 H2 _.
    split; lra.
Qed.

Lemma Qfloor_unique (x : Q) (n : Z) :
  (inject_Z n <= x)%Q -> (x < inject_Z (n + 1))%Q -> Qfloor x = n.
Proof.
  intros Hlo Hhi.
  assert (H1 : n <= Qfloor x).
  { rewrite <- (Qfloor_Z n). apply Qfloor_resp_le. exact Hlo. }
  assert (H2 : Qfloor x < n + 1).
  { rewrite Zlt_Qlt. apply (Qle_lt_trans _ x); [apply Qfloor_le | exact Hhi]. }
  lia.
Qed.

Lemma inject_Z_pred (z : Z) : (inject_Z (z - 1) == inject_Z z - 1)%Q.
Proof.
  replace (z - 1) with (z + -1) by lia. rewrite inject_Z_plus.
  change (inject_Z (-1)) with (-1)%Q. ring.
Qed.

(** A number less than a half away from an integer rounds to it. *)
Lemma round_half_even_near (x : Q) (z : Z) :
  (Qabs (x - inject_Z z) < 1 # 2)%Q -> Py.round_half_even x = z.
Proof.
  intros H. apply Qabs_Qlt_condition in H. destruct H as [H1 H2].
  unfold Py.round_half_even.
  destruct (Qlt_le_dec x (inject_Z z)) as [Hlt | Hge].
  - assert (Ef : Qfloor x = z - 1).
    { apply Qfloor_unique.
      - rewrite inject_Z_pred. lra.
      - replace (z - 1 + 1) with z by lia. exact Hlt. }
    rewrite Ef.
    assert (Hc : (x - inject_Z (z - 1) ?= 1 # 2)%Q = Gt).
    { apply (proj1 (Qgt_alt _ _)). rewrite inject_Z_pred. lra. }
    rewrite Hc. lia.
  - assert (Ef : Qfloor x = z).
    { apply Qfloor_unique; [exact Hge |].
      rewrite inject_Z_plus. change (inject_Z 1) with 1%Q. lra. }
    rewrite Ef.
    assert (Hc : (x - inject_Z z ?= 1 # 2)%Q = Lt).
    { apply (proj1 (Qlt_alt _ _)). exact H2. }
    rewrite Hc. reflexivity.
Qed.

Lemma round_half_even_of_Z (z : Z) : Py.round_half_even (inject_Z z) = z.
Proof.
  apply round_half_even_near.
  assert (E : (inject_Z z - inject_Z z == 0)%Q) by ring.
  rewrite E. reflexivity.
Qed.

(** An integer below [2^53] in magnitude is a double. *)
Lemma rnd_of_small_int (n : Z) :
  Z.abs n < 2 ^ 53 -> (Binary64.rnd (inject_Z n) == inject_Z n)%Q.
Proof.
  intros Hn.
  destruct (Z.eq_dec n 0) as [-> | Hne]; [reflexivity |].
  assert (Hq : ~ (inject_Z n == 0)%Q).
  { intros E. apply Hne. apply inject_Z_injective. exact E. }
  assert (Hm : (Qabs (inject_Z n) < 2 ^ 53)%Q).
  { rewrite (pow2_of_Z 53) by lia.
    change (Qabs (inject_Z n)) with (inject_Z (Z.abs n)).
    rewrite <- Zlt_Qlt. exact Hn. }
  pose proof (ilog2_below _ 53 Hq Hm) as Hl.
  rewrite (rnd_scaled _ Hq).
  set (e := Binary64.ulp_exponent (inject_Z n)).
  assert (He : e <= 0) by (unfold e, Binary64.ulp_exponent; lia).
  assert (Ee : (2 ^ e == / inject_Z (2 ^ (- e)))%Q).
  { replace e with (- (- e)) at 1 by lia.
    rewrite Qpower_opp, (pow2_of_Z (- e)) by lia. reflexivity. }
  assert (Pp : (0 < inject_Z (2 ^ (- e)))%Q).
  { rewrite <- (pow2_of_Z (- e)) by lia. apply pow2_pos. }
  assert (Ey : (inject_Z n / 2 ^ e == inject_Z (n * 2 ^ (- e)))%Q).
  { rewrite Ee, inject_Z_mult. field. lra. }
  rewrite (round_half_even_comp _ _ Ey), round_half_even_of_Z.
  rewrite Ee, inject_Z_mult. field. lra.
Qed.

Lemma rnd_near_4194304 (q : Q) :
  (- (4194304) < q < 4194304)%Q ->
  (q - (1 # 4294967296) <= Binary64.rnd q <= q + (1 # 4294967296))%Q.
Proof.
  intros [H1 H2].
  assert (H : (Qabs (Binary64.rnd q - q) <= 2 ^ (22 - 54))%Q).
  { apply rnd_error; [| lia]. apply Qabs_Qlt_condition.
    change (2 ^ 22)%Q with 4194304%Q. split; assumption. }
  change (2 ^ (22 - 54))%Q with (1 # 4294967296)%Q in H.
  apply Qabs_Qle_condition in H. destruct H as [Ha Hb]. split; lra.
Qed.

Lemma rnd_near_2 (q : Q) :
  (- (2) < q < 2)%Q ->
  (q - (1 # 9007199254740992) <= Binary64.rnd q
   <= q + (1 # 9007199254740992))%Q.
Proof.
  intros [H1 H2].
  assert (H : (Qabs (Binary64.rnd q - q) <= 2 ^ (1 - 54))%Q).
  { apply rnd_error; [| lia]. apply Qabs_Qlt_condition.
    change (2 ^ 1)%Q with 2%Q. split; assumption. }
  change (2 ^ (1 - 54))%Q with (1 # 9007199254740992)%Q in H.
  apply Qabs_Qle_condition in H. destruct H as [Ha Hb]. split; lra.
Qed.

(** [float(x)] is the value of [x] when [x] is a float or a small int. *)
Lemma float_value (x : Py.pynum) (k : Z) :
  (- inject_Z k <= Py.value x <= inject_Z k)%Q -> k < 2 ^ 53 ->
  (Binary64.float x == Py.value x)%Q.
Proof.
  intros [H1 H2] Hk. destruct x as [a | q]; [| reflexivity].
  cbn [Binary64.float Py.value] in *. apply rnd_of_small_int.
  rewrite <- inject_Z_opp in H1. rewrite <- Zle_Qle in H1, H2. lia.
Qed.

(** One [+] of the sum: the error it adds is at most 2^-32 as long as the
    terms stay below 2^22. *)
Lemma add_error (x y : Py.pynum) (k : Z) :
  (- inject_Z k <= Py.value x <= inject_Z k)%Q ->
  (- (2) <= Py.value y <= 2)%Q ->
  0 <= k <= 4194300 ->
  (Py.value x + Py.value y - (1 # 4294967296)
   <= Py.value (Binary64.add x y)
   <= Py.value x + Py.value y + (1 # 4294967296))%Q.
Proof.
  intros Hx Hy Hk.
  assert (Hkq : (inject_Z k <= 4194300)%Q).
  { change 4194300%Q with (inject_Z 4194300). rewrite <- Zle_Qle. lia. }
  assert (Hk0 : (0 <= inject_Z k)%Q).
  { change 0%Q with (inject_Z 0). rewrite <- Zle_Qle. lia. }
  assert (Ex : (Binary64.float x == Py.value x)%Q)
    by (apply (float_value x k); [exact Hx | lia]).
  assert (Ey : (Binary64.float y == Py.value y)%Q).
  { apply (float_value y 2); [| lia]. change (inject_Z 2) with 2%Q.
    exact Hy. }
  assert (Hr : (Binary64.float x + Binary64.float y - (1 # 4294967296)
                <= Binary64.rnd (Binary64.float x + Binary64.float y)
                <= Binary64.float x + Binary64.float y
                   + (1 # 4294967296))%Q).
  { apply rnd_near_4194304. split; lra. }
  destruct x as [a | p], y as [b | q];
    cbn [Binary64.add Py.value] in *; try (split; lra).
  rewrite inject_Z_plus. split; lra.
Qed.

Lemma sum_from_error (xs : list Py.pynum) (acc : Py.pynum) (k : Z) (S : Q) :
  Forall (fun x => (- (2) <= Py.value x <= 2)%Q) xs ->
  0 <= k -> k + Z.of_nat (length xs) <= 1048576 ->
  (- (2) * inject_Z k <= S <= 2 * inject_Z k)%Q ->
  (S - inject_Z k * (1 # 4294967296) <= Py.value acc
   <= S + inject_Z k * (1 # 4294967296))%Q ->
  (S + fold_right Qplus 0 (map Py.value xs)
   - inject_Z (k + Z.of_nat (length xs)) * (1 # 4294967296)
   <= Py.value (fold_left Binary64.add xs acc)
   <= S + fold_right Qplus 0 (map Py.value xs)
      + inject_Z (k + Z.of_nat (length xs)) * (1 # 4294967296))%Q.
Proof.
  intros Hxs. revert acc k S.
  induction Hxs as [| x xs Hx _ IH]; intros acc k S Hk Hlen HS Hacc.
  - cbn [length map fold_right fold_left]. rewrite Z.add_0_r.
    split; lra.
  - cbn [length map fold_right fold_left] in *.
    rewrite Nat2Z.inj_succ in *.
    assert (Hkq : (inject_Z k <= 1048576)%Q).
    { change 1048576%Q with (inject_Z 1048576). rewrite <- Zle_Qle. lia. }
    assert (Hk0 : (0 <= inject_Z k)%Q).
    { change 0%Q with (inject_Z 0). rewrite <- Zle_Qle. lia. }
    assert (Ha : (- inject_Z (3 * k) <= Py.value acc <= inject_Z (3 * k))%Q).
    { rewrite inject_Z_mult. change (inject_Z 3) with 3%Q. split; lra. }
    pose proof (add_error acc x (3 * k) Ha Hx ltac:(lia)) as Hadd.
    specialize (IH (Binary64.add acc x) (k + 1) (S + Py.value x)%Q
                  ltac:(lia) ltac:(lia)).
    replace (k + Z.succ (Z.of_nat (length xs)))
      with (k + 1 + Z.of_nat (length xs)) by lia.
    assert (E1 : (inject_Z (k + 1) == inject_Z k + 1)%Q).
    { rewrite inject_Z_plus. reflexivity. }
    assert (E2 : (S + (Py.value x + fold_right Qplus 0 (map Py.value xs))
                  == S + Py.value x
                     + fold_right Qplus 0 (map Py.value xs))%Q) by ring.
    rewrite E2. apply IH.
    + rewrite E1. split; lra.
    + rewrite E1. split; lra.
Qed.

(** The float sum of at most 2^20 numbers between -2 and 2 is within
    2^-32 for each term of their exact sum. *)
Lemma sum_error (xs : list Py.pynum) :
  Forall (fun x => (- (2) <= Py.value x <= 2)%Q) xs ->
  Z.of_nat (length xs) <= 1048576 ->
  (fold_right Qplus 0 (map Py.value xs)
   - inject_Z (Z.of_nat (length xs)) * (1 # 4294967296)
   <= Py.value (Binary64.sum xs)
   <= fold_right Qplus 0 (map Py.value xs)
      + inject_Z (Z.of_nat (length xs)) * (1 # 4294967296))%Q.
Proof.
  intros Hxs Hlen.
  pose proof (sum_from_error xs (Py.PyInt 0) 0 0 Hxs ltac:(lia) ltac:(lia))
    as H.
  cbn [Z.add] in H. unfold Binary64.sum.
  assert (E : forall t : Q, (0 + t == t)%Q) by (intros; ring).
  rewrite !E in H. apply H.
  - split; discriminate.
  - cbn. split; discriminate.
Qed.

(** ** The average of a log of hundredths *)

Lemma hundredth_value (n : Z) : (n # 100 == inject_Z n * (1 # 100))%Q.
Proof. unfold Qeq, Qmult, inject_Z. simpl. lia. Qed.

Lemma stores_value (r : detection_record) (n : Z) :
  stores r n ->
  (inject_Z n * (1 # 100) - (1 # 9007199254740992)
   <= Py.value (confidence r)
   <= inject_Z n * (1 # 100) + (1 # 9007199254740992))%Q
  /\ (- (2) <= Py.value (confidence r) <= 2)%Q.
Proof.
  intros [[H0 H1] [[Hc Hn] | Hc]].
  - rewrite Hc, Hn. cbn. split; split; discriminate.
  - rewrite Hc. cbn [Py.value].
    assert (Q0 : (0 <= inject_Z n)%Q).
    { change 0%Q with (inject_Z 0). rewrite <- Zle_Qle. exact H0. }
    assert (Q1 : (inject_Z n <= 100)%Q).
    { change 100%Q with (inject_Z 100). rewrite <- Zle_Qle. exact H1. }
    pose proof (hundredth_value n) as E.
    assert (Hr : (- (2) < n # 100 < 2)%Q) by (split; lra).
    apply rnd_near_2 in Hr. split; split; lra.
Qed.

Lemma stored_sum (h : list detection_record) (ns : list Z) :
  Forall2 stores h ns ->
  length ns = length h
  /\ 0 <= fold_right Z.add 0 ns <= 100 * Z.of_nat (length h)
  /\ Forall (fun x => (- (2) <= Py.value x <= 2)%Q) (map confidence h)
  /\ (inject_Z (fold_right Z.add 0%Z ns) * (1 # 100)
      - inject_Z (Z.of_nat (length h)) * (1 # 9007199254740992)
      <= fold_right Qplus 0 (map Py.value (map confidence h))
      <= inject_Z (fold_right Z.add 0%Z ns) * (1 # 100)
         + inject_Z (Z.of_nat (length h)) * (1 # 9007199254740992))%Q.
Proof.
  induction 1 as [| r n h ns Hr _ IH].
  - cbn. repeat split; try lia; try constructor; discriminate.
  - destruct IH as (Hl & Ht & Hb & Hs).
    pose proof Hr as [Hn _].
    destruct (stores_value r n Hr) as [Hv Hv2].
    cbn [length map fold_right]. rewrite Nat2Z.inj_succ.
    split; [congruence |]. split; [lia |].
    split; [constructor; assumption |].
    unfold Z.succ. rewrite !inject_Z_plus.
    change (inject_Z 1) with 1%Q. split; lra.
Qed.

(** A fraction that is not halfway between two integers rounds to an
    integer that is nearer than a half by one part in [2n]. *)
Lemma round_of_fraction (T n : Z) :
  0 < n ->
  let y := (inject_Z T / inject_Z n)%Q in
  ~ (y - inject_Z (Qfloor y) == 1 # 2)%Q ->
  (y - (1 # 2) + / (2 * inject_Z n)
   <= inject_Z (Py.round_half_even y)
   <= y + (1 # 2) - / (2 * inject_Z n))%Q.
Proof.
  intros Hn y Htie.
  assert (Hc : (0 < inject_Z n)%Q).
  { change 0%Q with (inject_Z 0). rewrite <- Zlt_Qlt. exact Hn. }
  assert (Ef : Qfloor y = T / n) by (unfold y; symmetry; apply Zdiv_Qdiv).
  pose proof (Z.div_mod T n ltac:(lia)) as Hdm.
  pose proof (Z.mod_pos_bound T n Hn) as Hr.
  set (f := T / n) in *. set (r := T mod n) in *.
  set (u := (/ inject_Z n)%Q).
  assert (Hu : (inject_Z n * u == 1)%Q) by (unfold u; field; lra).
  assert (Hu0 : (0 < u)%Q) by (unfold u; apply Qinv_lt_0_compat; exact Hc).
  assert (Ey : (y == inject_Z f + inject_Z r * u)%Q).
  { unfold y, u. rewrite Hdm, inject_Z_plus, inject_Z_mult. field. lra. }
  assert (Ei : (/ (2 * inject_Z n) == (1 # 2) * u)%Q)
    by (unfold u; field; lra).
  rewrite Ei.
  assert (Hr0 : (0 <= inject_Z r)%Q).
  { change 0%Q with (inject_Z 0). rewrite <- Zle_Qle. lia. }
  unfold Py.round_half_even. rewrite Ef in *.
  destruct (y - inject_Z f ?= 1 # 2)%Q eqn:Hcmp.
  - apply Qeq_alt in Hcmp. contradiction.
  - apply Qlt_alt in Hcmp.
    assert (H2r : 2 * r + 1 <= n).
    { assert (H : 2 * r < n); [| lia].
      rewrite Zlt_Qlt, inject_Z_mult. change (inject_Z 2) with 2%Q.
      assert (Hm : (inject_Z r * u * inject_Z n < (1 # 2) * inject_Z n)%Q).
      { apply Qmult_lt_compat_r; [exact Hc | lra]. }
      assert (E : (inject_Z r * u * inject_Z n == inject_Z r)%Q)
        by (unfold u; field; lra).
      rewrite E in Hm. lra. }
    assert (Hq : ((2 * inject_Z r + 1) * u <= inject_Z n * u)%Q).
    { apply Qmult_le_compat_r; [| lra].
      change 2%Q with (inject_Z 2). change 1%Q with (inject_Z 1).
      rewrite <- inject_Z_mult, <- inject_Z_plus, <- Zle_Qle. exact H2r. }
    assert (Hru : (0 <= inject_Z r * u)%Q)
      by (apply Qmult_le_0_compat; lra).
    assert (E : ((2 * inject_Z r + 1) * u == 2 * (inject_Z r * u) + u)%Q)
      by ring.
    rewrite E in Hq. rewrite Hu in Hq.
    generalize dependent (inject_Z r * u)%Q. intros. split; lra.
  - apply Qgt_alt in Hcmp.
    assert (H2r : n + 1 <= 2 * r).
    { assert (H : n < 2 * r); [| lia].
      rewrite Zlt_Qlt, inject_Z_mult. change (inject_Z 2) with 2%Q.
      assert (Hm : ((1 # 2) * inject_Z n < inject_Z r * u * inject_Z n)%Q).
      { apply Qmult_lt_compat_r; [exact Hc | lra]. }
      assert (E : (inject_Z r * u * inject_Z n == inject_Z r)%Q)
        by (unfold u; field; lra).
      rewrite E in Hm. lra. }
    assert (Hq : ((inject_Z n + 1) * u <= (2 * inject_Z r) * u)%Q).
    { apply Qmult_le_compat_r; [| lra].
      change 2%Q with (inject_Z 2). change 1%Q with (inject_Z 1).
      rewrite <- inject_Z_mult, <- inject_Z_plus, <- Zle_Qle. exact H2r. }
    assert (E1 : ((inject_Z n + 1) * u == inject_Z n * u + u)%Q) by ring.
    assert (E2 : (2 * inject_Z r * u == 2 * (inject_Z r * u))%Q) by ring.
    rewrite E1, E2, Hu in Hq.
    assert (Hq2 : (inject_Z r * u <= inject_Z n * u)%Q).
    { apply Qmult_le_compat_r; [| lra]. rewrite <- Zle_Qle. lia. }
    rewrite Hu in Hq2. rewrite inject_Z_plus.
    change (inject_Z 1) with 1%Q.
    generalize dependent (inject_Z r * u)%Q. intros. split; lra.
Qed.

Lemma truediv_by_count (x : Py.pynum) (n : Z) :
  0 < n < 2 ^ 53 ->
  exists u,
    Binary64.truediv x (Py.PyInt n) = Some (Py.PyFloat (Binary64.rnd u))
    /\ (u == Py.value x / inject_Z n)%Q.
Proof.
  intros Hn. unfold Binary64.truediv. cbn [Py.value].
  assert (Hz : Qeq_bool (inject_Z n) 0 = false).
  { destruct (Qeq_bool (inject_Z n) 0) eqn:E; [| reflexivity].
    apply Qeq_bool_eq in E. change 0%Q with (inject_Z 0) in E.
    apply (proj1 (inject_Z_injective _ _)) in E. lia. }
  rewrite Hz. destruct x as [a | q].
  - eexists. split; reflexivity.
  - eexists. split; [reflexivity |]. cbn [Binary64.float Py.value].
    rewrite (rnd_of_small_int n) by lia. reflexivity.
Qed.

(** On a log of at most 2^20 confidences in hundredths, a hundred times
    the quotient [sum / total] of the interpreter is within 1/40000000
    of a hundred times the exact mean. *)
Lemma quotient_near_mean (h : list detection_record) (ns : list Z) :
  Forall2 stores h ns ->
  h <> [] ->
  Z.of_nat (length h) <= 1048576 ->
  exists q,
    Binary64.truediv (Binary64.sum (map confidence h))
      (Py.PyInt (Z.of_nat (length h)))
    = Some (Py.PyFloat q)
    /\ (mean_of_hundredths ns * 100 - (1 # 40000000) <= q * 100
        <= mean_of_hundredths ns * 100 + (1 # 40000000))%Q.
Proof.
  intros Hst Hne Hlen.
  destruct (stored_sum h ns Hst) as (Hl & Ht & Hb & Hs).
  set (n := Z.of_nat (length h)) in *.
  set (T := fold_right Z.add 0 ns) in *.
  assert (Hn : 1 <= n).
  { unfold n. destruct h; [congruence | simpl length; lia]. }
  assert (Hlen' : Z.of_nat (length (map confidence h)) <= 1048576)
    by (rewrite length_map; exact Hlen).
  pose proof (sum_error (map confidence h) Hb Hlen') as Hsum.
  rewrite length_map in Hsum. fold n in Hsum.
  destruct (truediv_by_count (Binary64.sum (map confidence h)) n
              ltac:(lia)) as (u & Hdiv & Eu).
  exists (Binary64.rnd u). split; [exact Hdiv |].
  set (V := Py.value (Binary64.sum (map confidence h))) in *.
  set (c := inject_Z n) in *. set (Tq := inject_Z T) in *.
  assert (Hc1 : (1 <= c)%Q).
  { unfold c. change 1%Q with (inject_Z 1). rewrite <- Zle_Qle. exact Hn. }
  assert (HT0 : (0 <= Tq)%Q).
  { unfold Tq. change 0%Q with (inject_Z 0). rewrite <- Zle_Qle. lia. }
  assert (HT1 : (Tq <= 100 * c)%Q).
  { unfold Tq, c. change 100%Q with (inject_Z 100).
    rewrite <- inject_Z_mult, <- Zle_Qle. lia. }
  set (i := (/ c)%Q).
  assert (Hi : (c * i == 1)%Q) by (unfold i; field; lra).
  assert (Hi0 : (0 < i)%Q) by (unfold i; apply Qinv_lt_0_compat; lra).
  assert (Eu' : (u == V * i)%Q) by (rewrite Eu; unfold i; field; lra).
  assert (Hc0 : ~ (c == 0)%Q) by lra.
  assert (Em : (mean_of_hundredths ns * 100 == Tq * i)%Q).
  { unfold mean_of_hundredths. rewrite Hl. fold n T.
    rewrite inject_Z_mult. change (inject_Z 100) with 100%Q.
    fold c Tq. unfold i. field. exact Hc0. }
  assert (Hy0 : (0 <= Tq * i)%Q) by (apply Qmult_le_0_compat; lra).
  assert (Hy1 : (Tq * i <= 100)%Q).
  { assert (H : (Tq * i <= 100 * c * i)%Q)
      by (apply Qmult_le_compat_r; lra).
    assert (E : (100 * c * i == 100 * (c * i))%Q) by ring.
    rewrite E, Hi in H. lra. }
  destruct Hs as [Hs1 Hs2]. destruct Hsum as [Hv1 Hv2].
  assert (HV1 : ((Tq * (1 # 100) - c * (1 # 9007199254740992)
                  - c * (1 # 4294967296)) * i <= V * i)%Q).
  { apply Qmult_le_compat_r; lra. }
  assert (HV2 : (V * i <= (Tq * (1 # 100) + c * (1 # 9007199254740992)
                           + c * (1 # 4294967296)) * i)%Q).
  { apply Qmult_le_compat_r; lra. }
  assert (E1 : ((Tq * (1 # 100) - c * (1 # 9007199254740992)
                 - c * (1 # 4294967296)) * i
                == (1 # 100) * (Tq * i)
                   - (c * i) * ((1 # 9007199254740992)
                                + (1 # 4294967296)))%Q) by ring.
  assert (E2 : ((Tq * (1 # 100) + c * (1 # 9007199254740992)
                 + c * (1 # 4294967296)) * i
                == (1 # 100) * (Tq * i)
                   + (c * i) * ((1 # 9007199254740992)
                                + (1 # 4294967296)))%Q) by ring.
  rewrite E1, Hi in HV1. rewrite E2, Hi in HV2.
  rewrite <- Eu' in HV1, HV2.
  assert (Hu : (- (2) < u < 2)%Q) by (split; lra).
  pose proof (rnd_near_2 u Hu) as [Hr1 Hr2].
  rewrite Em. generalize dependent (Binary64.rnd u).
  generalize dependent (Tq * i)%Q.
  intros. split; lra.
Qed.

(** An integer within a half and a little of a fraction of denominator
    [n] is within a half of it, when the little is less than [1/(2n)]. *)
Lemma integer_near_fraction (T n k : Z) :
  0 < n <= 1048576 ->
  (inject_Z T / inject_Z n - (1 # 2) - (1 # 20000000) <= inject_Z k
   <= inject_Z T / inject_Z n + (1 # 2) + (1 # 20000000))%Q ->
  (inject_Z T / inject_Z n - (1 # 2) <= inject_Z k
   <= inject_Z T / inject_Z n + (1 # 2))%Q.
Proof.
  intros Hn [H1 H2].
  set (c := inject_Z n) in *.
  assert (Hc1 : (1 <= c)%Q).
  { unfold c. change 1%Q with (inject_Z 1). rewrite <- Zle_Qle. lia. }
  assert (Hc2 : (c <= 1048576)%Q).
  { unfold c. change 1048576%Q with (inject_Z 1048576).
    rewrite <- Zle_Qle. lia. }
  set (y := (inject_Z T / c)%Q) in *.
  assert (Ey : (y * c == inject_Z T)%Q) by (unfold y; field; lra).
  (* 2 (k n - T) is an integer between -n - 1 and n + 1, both excluded *)
  assert (EZ : (inject_Z (2 * (k * n - T))
                == 2 * (inject_Z k * c) - 2 * (y * c))%Q).
  { rewrite Ey. unfold c.
    replace (2 * (k * n - T)) with (2 * (k * n) + - (2 * T)) by lia.
    rewrite inject_Z_plus, inject_Z_opp.
    rewrite (inject_Z_mult 2 (k * n)), (inject_Z_mult 2 T),
      (inject_Z_mult k n).
    change (inject_Z 2) with 2%Q. ring. }
  assert (Hlo' : ((y - (1 # 2) - (1 # 20000000)) * c <= inject_Z k * c)%Q)
    by (apply Qmult_le_compat_r; lra).
  assert (Hhi' : (inject_Z k * c <= (y + (1 # 2) + (1 # 20000000)) * c)%Q)
    by (apply Qmult_le_compat_r; lra).
  assert (E1 : ((y - (1 # 2) - (1 # 20000000)) * c
                == y * c - (1 # 2) * c - (1 # 20000000) * c)%Q) by ring.
  assert (E2 : ((y + (1 # 2) + (1 # 20000000)) * c
                == y * c + (1 # 2) * c + (1 # 20000000) * c)%Q) by ring.
  rewrite E1 in Hlo'. rewrite E2 in Hhi'.
  assert (En : (inject_Z (n + 1) == c + 1)%Q).
  { rewrite inject_Z_plus. reflexivity. }
  assert (En' : (inject_Z (- n - 1) == - c - 1)%Q).
  { replace (- n - 1) with (- (n + 1)) by lia.
    rewrite inject_Z_opp, En. ring. }
  assert (Hk : - n <= 2 * (k * n - T) <= n).
  { assert (Hlo : - n - 1 < 2 * (k * n - T)).
    { rewrite Zlt_Qlt, EZ, En'.
      generalize dependent (inject_Z k * c)%Q.
      generalize dependent (y * c)%Q. intros. lra. }
    assert (Hhi : 2 * (k * n - T) < n + 1).
    { rewrite Zlt_Qlt, EZ, En.
      generalize dependent (inject_Z k * c)%Q.
      generalize dependent (y * c)%Q. intros. lra. }
    lia. }
  destruct Hk as [Hk1 Hk2].
  rewrite Zle_Qle, EZ in Hk1, Hk2. rewrite inject_Z_opp in Hk1.
  fold c in Hk1, Hk2.
  split.
  - apply (Qmult_le_r _ _ c); [lra |].
    assert (E : ((y - (1 # 2)) * c == y * c - (1 # 2) * c)%Q) by ring.
    rewrite E. generalize dependent (inject_Z k * c)%Q.
    generalize dependent (y * c)%Q. intros. lra.
  - apply (Qmult_le_r _ _ c); [lra |].
    assert (E : ((y + (1 # 2)) * c == y * c + (1 # 2) * c)%Q) by ring.
    rewrite E. generalize dependent (inject_Z k * c)%Q.
    generalize dependent (y * c)%Q. intros. lra.
Qed.

Lemma ilog2_unique (q : Q) (l : Z) :
  (2 ^ l <= Qabs q)%Q -> (Qabs q < 2 ^ (l + 1))%Q -> Binary64.ilog2 q = l.
Proof.
  intros Hlo Hhi.
  assert (Hq : ~ (q == 0)%Q).
  { intros E. rewrite E in Hlo. pose proof (pow2_pos l) as P.
    change (Qabs 0) with 0%Q in Hlo. lra. }
  destruct (ilog2_spec q Hq) as [Hlo' Hhi'].
  assert (H1 : Binary64.ilog2 q < l + 1).
  { apply (Qpower_lt_compat_l_inv 2); [| reflexivity].
    apply (Qle_lt_trans _ (Qabs q)); assumption. }
  assert (H2 : l < Binary64.ilog2 q + 1).
  { apply (Qpower_lt_compat_l_inv 2); [| reflexivity].
    apply (Qle_lt_trans _ (Qabs q)); assumption. }
  lia.
Qed.

(** The nearest double depends on the number only, not on the fraction
    that denotes it. *)
Lemma rnd_comp (p q : Q) : (p == q)%Q -> Binary64.rnd p = Binary64.rnd q.
Proof.
  intros E. destruct (Qeq_dec q 0) as [Hq | Hq].
  - rewrite (rnd_0 q Hq), (rnd_0 p); [reflexivity |]. rewrite E. exact Hq.
  - assert (Hp : ~ (p == 0)%Q) by (rewrite E; exact Hq).
    assert (El : Binary64.ilog2 p = Binary64.ilog2 q).
    { destruct (ilog2_spec q Hq) as [Hlo Hhi].
      apply ilog2_unique; rewrite E; assumption. }
    unfold Binary64.rnd.
    destruct (Qeq_bool p 0) eqn:Bp;
      [apply Qeq_bool_iff in Bp; contradiction |].
    destruct (Qeq_bool q 0) eqn:Bq;
      [apply Qeq_bool_iff in Bq; contradiction |].
    unfold Binary64.ulp_exponent. rewrite El.
    set (e := Z.max (-1074) (Binary64.ilog2 q - 52)).
    assert (Ey : (p / 2 ^ e == q / 2 ^ e)%Q) by (rewrite E; reflexivity).
    rewrite (round_half_even_comp _ _ Ey). reflexivity.
Qed.

Lemma mean_as_fraction (ns : list Z) :
  ns <> [] ->
  (mean_of_hundredths ns * 100
   == inject_Z (fold_right Z.add 0%Z ns)
      / inject_Z (Z.of_nat (length ns)))%Q.
Proof.
  intros Hne. unfold mean_of_hundredths.
  assert (Hn : (0 < inject_Z (Z.of_nat (length ns)))%Q).
  { change 0%Q with (inject_Z 0). rewrite <- Zlt_Qlt.
    destruct ns; [congruence | simpl length; lia]. }
  rewrite inject_Z_mult. change (inject_Z 100) with 100%Q. field. lra.
Qed.

(** C3, amended: on a log of at most 2^20 records that holds the
    confidences as [detect_ball] writes them, in hundredths between 0 and
    1, [Binary64.get_statistics], which computes as the interpreter does,
    returns as avg_confidence the double of a hundredth that is nearest
    to the exact mean of the confidences: it is within half a hundredth
    of the mean, and it is the mean rounded to two decimals whenever the
    mean does not lie halfway between two hundredths.  On the empty log
    it is the integer 0. *)
Theorem statistics_avg_confidence
        (w : world) (h : list detection_record) (ns : list Z) :
  load_history w = (Ok h, w) ->
  Forall2 stores h ns ->
  Z.of_nat (length h) <= 2 ^ 20 ->
  exists s,
    Binary64.get_statistics w = (Ok s, w)
    /\ (h = [] -> avg_confidence s = Py.PyInt 0)
    /\ (h <> [] ->
        exists k,
          avg_confidence s = Py.PyFloat (Binary64.rnd (k # 100))
          /\ (Qabs ((k # 100) - mean_of_hundredths ns) <= 1 # 200)%Q
          /\ (~ rounding_tie (mean_of_hundredths ns) ->
              avg_confidence s
              = Py.PyFloat
                  (Binary64.rnd (Py.round2 (mean_of_hundredths ns))))).
Proof.
  intros Hh Hst Hlen.
  unfold Binary64.get_statistics. unfold bind at 1. rewrite Hh.
  destruct (list_eq_nil_dec h) as [-> | Hne].
  - eexists. split; [reflexivity |]. split; [reflexivity | congruence].
  - destruct (quotient_near_mean h ns Hst Hne Hlen) as (q & Hdiv & Hq).
    assert (Hpos : Z.ltb 0 (Z.of_nat (length h)) = true).
    { apply Z.ltb_lt. destruct h; [congruence | simpl length; lia]. }
    rewrite Hpos. unfold bind, Binary64.divide. rewrite Hdiv. unfold ret.
    eexists. split; [reflexivity |]. cbn [avg_confidence Binary64.round].
    split; [intros E; congruence | intros _].
    destruct (stored_sum h ns Hst) as (Hl & _ & _ & _).
    assert (Hns : ns <> []).
    { intros ->. destruct h; [congruence | discriminate Hl]. }
    pose proof (mean_as_fraction ns Hns) as Em.
    set (T := fold_right Z.add 0 ns) in *.
    set (n := Z.of_nat (length ns)) in *.
    assert (Hn : 0 < n <= 1048576).
    { unfold n. rewrite Hl. split; [| exact Hlen].
      destruct h; [congruence | simpl length; lia]. }
    set (k := Py.round_half_even (q * 100)).
    pose proof (round_half_even_close (q * 100)) as Hk. fold k in Hk.
    apply Qabs_Qle_condition in Hk. destruct Hk as [Hk1 Hk2].
    destruct Hq as [Hq1 Hq2].
    assert (Hnear : (inject_Z T / inject_Z n - (1 # 2) <= inject_Z k
                     <= inject_Z T / inject_Z n + (1 # 2))%Q).
    { apply integer_near_fraction; [exact Hn |]. rewrite <- Em.
      split; lra. }
    rewrite <- Em in Hnear.
    exists k. split; [| split].
    + f_equal. apply rnd_comp. unfold Py.round2. apply Qred_correct.
    + apply Qabs_Qle_condition. rewrite (hundredth_value k).
      destruct Hnear. split; lra.
    + intros Htie. do 2 f_equal. unfold Py.round2. do 2 f_equal.
      fold k. rewrite (round_half_even_comp _ _ Em).
      assert (Htie' : ~ (inject_Z T / inject_Z n
                         - inject_Z (Qfloor (inject_Z T / inject_Z n))
                         == 1 # 2)%Q).
      { intros H. apply Htie. unfold rounding_tie.
        rewrite (Qfloor_comp _ _ Em), Em. exact H. }
      pose proof (round_of_fraction T n ltac:(lia) Htie') as Hz.
      cbv zeta in Hz. unfold k. apply round_half_even_near.
      apply Qabs_Qlt_condition.
      assert (Hc1 : (1 <= inject_Z n)%Q).
      { change 1%Q with (inject_Z 1). rewrite <- Zle_Qle. lia. }
      assert (Hc2 : (inject_Z n <= 1048576)%Q).
      { change 1048576%Q with (inject_Z 1048576). rewrite <- Zle_Qle.
        lia. }
      set (i := (/ inject_Z n)%Q).
      assert (Hi : (inject_Z n * i == 1)%Q) by (unfold i; field; lra).
      assert (Hi0 : (0 < i)%Q) by (unfold i; apply Qinv_lt_0_compat; lra).
      assert (Hi1 : (1 <= 1048576 * i)%Q).
      { rewrite <- Hi. apply Qmult_le_compat_r; lra. }
      assert (Ei : (/ (2 * inject_Z n) == (1 # 2) * i)%Q)
        by (unfold i; field; lra).
      rewrite Ei in Hz. destruct Hz as [Hz1 Hz2].
      generalize dependent
        (inject_Z (Py.round_half_even (inject_Z T / inject_Z n))).
      intros. split; lra.
Qed.

Lemma statistics_avg_confidence_witness :
  exists s,
    Binary64.get_statistics three_log = (Ok s, three_log)
    /\ (map as_stored [earlier_record; later_record; match_record] = [] ->
        avg_confidence s = Py.PyInt 0)
    /\ (map as_stored [earlier_record; later_record; match_record] <> [] ->
        exists k,
          avg_confidence s = Py.PyFloat (Binary64.rnd (k # 100))
          /\ (Qabs ((k # 100) - mean_of_hundredths three_scores)
              <= 1 # 200)%Q
          /\ (~ rounding_tie (mean_of_hundredths three_scores) ->
              avg_confidence s
              = Py.PyFloat
                  (Binary64.rnd
                     (Py.round2 (mean_of_hundredths three_scores))))).
Proof.
  apply (statistics_avg_confidence three_log
           (map as_stored [earlier_record; later_record; match_record])
           three_scores).
  - reflexivity.
  - repeat constructor; try lia; solve [left; split; reflexivity
                                       | right; reflexivity].
  - vm_compute. discriminate.
Defined.

(** C3, as the spec states it, fails.  The log with the confidences 0.87
    and 0 has the mean 0.435, which rounded to two decimals is 0.44 (to
    the even neighbour, and upwards as well); the statistics computed as
    the interpreter computes them give 0.43. *)
Lemma average_on_a_tie :
  Forall2 stores (map as_stored [tie_record; later_record]) tie_scores
  /\ (mean_of_hundredths tie_scores == 435 # 1000)%Q
  /\ (Py.round2 (mean_of_hundredths tie_scores) == 44 # 100)%Q
  /\ Binary64.get_statistics tie_log
     = (Ok {| total_images := 2; found := 1; not_found := 1;
              avg_confidence := Py.PyFloat (Binary64.rnd (43 # 100)) |},
        tie_log)
  /\ Binary64.rnd (43 # 100) <> Binary64.rnd (44 # 100).
Proof.
  split.
  { repeat constructor; try lia; solve [left; split; reflexivity
                                       | right; reflexivity]. }
  split; [reflexivity |]. split; [reflexivity |].
  split; [vm_compute; reflexivity |]. vm_compute. discriminate.
Qed.

Example average_off_a_tie :
  fst (Binary64.get_statistics three_log)
  = Ok {| total_images := 3; found := 2; not_found := 1;
          avg_confidence := Py.PyFloat (Binary64.rnd (44 # 100)) |}.
Proof. vm_compute. reflexivity. Qed.

Example doubles_of_hundredths :
  Binary64.rnd (87 # 100) = (7836263351624663 # 9007199254740992)%Q
  /\ Binary64.rnd (43 # 100) = (7746191359077253 # 18014398509481984)%Q
  /\ Binary64.rnd (1 # 10) = (3602879701896397 # 36028797018963968)%Q
  /\ Binary64.rnd (inject_Z (2 ^ 53 + 1)) = inject_Z (2 ^ 53).
Proof. repeat split; vm_compute; reflexivity. Qed.

(** X15: the average of the index page and the average of the reports,
    both computed as the interpreter computes them, differ by the
    rounding only: by at most half a hundredth and one rounding to the
    nearest double, on a log of at most 2^20 records that holds the
    confidences as [detect_ball] writes them. *)
Theorem page_and_report_averages_are_close
        (w : world) (h : list detection_record) (ns : list Z) :
  load_history w = (Ok h, w) ->
  Forall2 stores h ns ->
  Z.of_nat (length h) <= 2 ^ 20 ->
  exists s a,
    Binary64.get_statistics w = (Ok s, w)
    /\ Binary64.report_average w = (Ok a, w)
    /\ (Qabs (Py.value (avg_confidence s) - Py.value a)
        <= (1 # 200) + (1 # 9007199254740992))%Q.
Proof.
  intros Hh Hst Hlen.
  unfold Binary64.get_statistics, Binary64.report_average, bind.
  rewrite Hh.
  destruct (list_eq_nil_dec h) as [-> | Hne].
  - do 2 eexists. split; [reflexivity |]. split; [reflexivity |].
    vm_compute. discriminate.
  - destruct (quotient_near_mean h ns Hst Hne Hlen) as (q & Hdiv & Hq).
    assert (Hn : 0 < Z.of_nat (length h)).
    { destruct h; [congruence | simpl length; lia]. }
    assert (Hpos : Z.ltb 0 (Z.of_nat (length h)) = true)
      by (apply Z.ltb_lt; exact Hn).
    assert (Hnz : Z.eqb (Z.of_nat (length h)) 0 = false)
      by (apply Z.eqb_neq; lia).
    rewrite Hpos, Hnz. unfold Binary64.divide. rewrite Hdiv.
    unfold ret. cbn [negb].
    do 2 eexists. split; [reflexivity |]. split; [reflexivity |].
    cbn [avg_confidence Binary64.round Py.value].
    destruct (stored_sum h ns Hst) as (Hl & Ht & _ & _).
    assert (Hns : ns <> []).
    { intros ->. destruct h; [congruence | discriminate Hl]. }
    pose proof (mean_as_fraction ns Hns) as Em. rewrite Hl in Em.
    set (T := fold_right Z.add 0 ns) in *.
    set (n := Z.of_nat (length h)) in *.
    assert (Hc : (0 < inject_Z n)%Q).
    { change 0%Q with (inject_Z 0). rewrite <- Zlt_Qlt. exact Hn. }
    assert (Hm0 : (0 <= inject_Z T / inject_Z n)%Q).
    { apply Qle_shift_div_l; [exact Hc |].
      assert (E : (0 * inject_Z n == inject_Z 0)%Q) by ring.
      rewrite E, <- Zle_Qle. lia. }
    assert (Hm1 : (inject_Z T / inject_Z n <= 100)%Q).
    { apply Qle_shift_div_r; [exact Hc |].
      change 100%Q with (inject_Z 100).
      rewrite <- inject_Z_mult, <- Zle_Qle. lia. }
    pose proof (round2_close q) as Hr.
    apply Qabs_Qle_condition in Hr. destruct Hr as [Hr1 Hr2].
    destruct Hq as [Hq1 Hq2].
    assert (Hb : (- (2) < Py.round2 q < 2)%Q) by (split; lra).
    pose proof (rnd_near_2 _ Hb) as [Hd1 Hd2].
    apply Qabs_Qle_condition. split; lra.
Qed.

Lemma page_and_report_averages_are_close_witness :
  exists s a,
    Binary64.get_statistics three_log = (Ok s, three_log)
    /\ Binary64.report_average three_log = (Ok a, three_log)
    /\ (Qabs (Py.value (avg_confidence s) - Py.value a)
        <= (1 # 200) + (1 # 9007199254740992))%Q.
Proof.
  apply (page_and_report_averages_are_close three_log
           (map as_stored [earlier_record; later_record; match_record])
           three_scores).
  - reflexivity.
  - repeat constructor; try lia; solve [left; split; reflexivity
                                       | right; reflexivity].
  - vm_compute. discriminate.
Defined.

Example averages_on_a_tie :
  exists s a,
    Binary64.get_statistics tie_log = (Ok s, tie_log)
    /\ Binary64.report_average tie_log = (Ok a, tie_log)
    /\ (1 # 200 < Py.value a - Py.value (avg_confidence s))%Q.
Proof.
  do 2 eexists. split; [vm_compute; reflexivity |].
  split; [vm_compute; reflexivity |]. vm_compute. reflexivity.
Qed.
